(** * Branch-gpt backend: the completion relay of [backend/app.py]

    A shallow embedding of the Flask backend that proxies chat requests to an
    OpenAI-compatible completions API and re-streams the generated text.

    - Python [str] values are sequences of Unicode code points ([list N]);
      [bytes] values are [list byte].
    - Decoded JSON is the Python object tree [json.loads] builds
      (None, bool, int, float, str, list, dict); a dict is an association list
      in insertion order with unique keys.
    - An unhandled Python exception is the outcome [Raised]; Flask answers it
      with status 500 outside the handler.
    - [json.loads] is a library function: the relay is defined over the class
      [JsonLib], and [Json.reference] is a decoder to run it on concrete
      frames.
    - [requests.post] is the field [post] of the environment: it raises a
      [requests.RequestException], raises something else, or returns a
      response. A response of the upstream is its status, its text and the
      lines [iter_lines] yields, text or undecoded bytes. Time-outs, the
      splitting of the body into lines and an upstream that fails while the
      stream is read are outside the model. *)

From Stdlib Require Import Strings.String Strings.Ascii Strings.Byte.
From Stdlib Require Import ZArith NArith Bool Lia List.
From Stdlib Require Import Floats.SpecFloat.
Import ListNotations.

Set Implicit Arguments.
Set Warnings "-register-all".

(* ================================================================== *)
(** ** Python values *)

Module Py.

(** A character is a Unicode code point. *)
Definition char := N.
Definition str := list char.
Definition bytes := list byte.

(** An ASCII literal as a [str]. *)
Definition u (s : string) : str := map N_of_ascii (list_ascii_of_string s).

Definition str_eqb (a b : str) : bool :=
  if list_eq_dec N.eq_dec a b then true else false.

(** [str.isspace] for one character: the code points [str.strip()] removes. *)
Definition isspace (c : char) : bool :=
  ((9 <=? c) && (c <=? 13) || (28 <=? c) && (c <=? 32)
   || (c =? 133) || (c =? 160) || (c =? 5760)
   || (8192 <=? c) && (c <=? 8202)
   || (c =? 8232) || (c =? 8233) || (c =? 8239) || (c =? 8287)
   || (c =? 12288))%N.

Fixpoint lstrip (s : str) : str :=
  match s with
  | c :: r => if isspace c then lstrip r else s
  | [] => []
  end.

Definition rstrip (s : str) : str := rev (lstrip (rev s)).

(** [s.strip()] *)
Definition strip (s : str) : str := rstrip (lstrip s).

(** [s.startswith(p)] *)
Fixpoint startswith (p s : str) : bool :=
  match p, s with
  | [], _ => true
  | a :: p', b :: s' => N.eqb a b && startswith p' s'
  | _ :: _, [] => false
  end.

(** [s.encode("utf-8")]: [None] is UnicodeEncodeError (a surrogate). *)
Definition byte_of (n : N) : byte :=
  match Byte.of_N n with Some b => b | None => x00 end.

Definition encode_char (c : char) : option bytes :=
  (if c <? 128 then Some [byte_of c]
   else if c <? 2048 then
     Some [byte_of (192 + c / 64); byte_of (128 + c mod 64)]
   else if (55296 <=? c) && (c <=? 57343) then None
   else if c <? 65536 then
     Some [byte_of (224 + c / 4096); byte_of (128 + (c / 64) mod 64);
           byte_of (128 + c mod 64)]
   else if c <? 1114112 then
     Some [byte_of (240 + c / 262144); byte_of (128 + (c / 4096) mod 64);
           byte_of (128 + (c / 64) mod 64); byte_of (128 + c mod 64)]
   else None)%N.

Fixpoint encode_utf8 (s : str) : option bytes :=
  match s with
  | [] => Some []
  | c :: r =>
      match encode_char c, encode_utf8 r with
      | Some b, Some bs => Some (b ++ bs)
      | _, _ => None
      end
  end.

(** The object tree of a decoded JSON document. *)
Inductive json :=
| JNull
| JBool (b : bool)
| JInt (z : Z)
| JFloat (f : spec_float)
| JStr (s : str)
| JList (l : list json)
| JDict (kvs : list (str * json)).

(** Truth value of an object ([bool(v)]). *)
Definition truthy (v : json) : bool :=
  match v with
  | JNull => false
  | JBool b => b
  | JInt z => negb (z =? 0)%Z
  | JFloat (S754_zero _) => false
  | JFloat _ => true
  | JStr s => match s with [] => false | _ => true end
  | JList l => match l with [] => false | _ => true end
  | JDict kvs => match kvs with [] => false | _ => true end
  end.

(** [a or b] *)
Definition por (a b : json) : json := if truthy a then a else b.

(** Lookup in a dict's items. *)
Fixpoint lookup (k : str) (kvs : list (str * json)) : option json :=
  match kvs with
  | [] => None
  | (k', v) :: r => if str_eqb k k' then Some v else lookup k r
  end.

(** [d[k] = v]: replaces the value of an existing key in place, appends a
    new key. *)
Fixpoint setitem (k : str) (v : json) (kvs : list (str * json)) : list (str * json) :=
  match kvs with
  | [] => [(k, v)]
  | (k', v') :: r => if str_eqb k k' then (k, v) :: r else (k', v') :: setitem k v r
  end.

(** Computations that may raise: [None] is a raised exception. *)
Definition exc (A : Type) := option A.
Definition ret {A} (a : A) : exc A := Some a.
Definition raise {A} : exc A := None.
Definition bind {A B} (m : exc A) (k : A -> exc B) : exc B :=
  match m with Some a => k a | None => None end.

(** [d.get(k, default)]: AttributeError unless [d] is a dict. *)
Definition get_default (d : json) (k : str) (default : json) : exc json :=
  match d with
  | JDict kvs => ret (match lookup k kvs with Some v => v | None => default end)
  | _ => raise
  end.

(** [d.get(k)] *)
Definition get (d : json) (k : str) : exc json := get_default d k JNull.

(** [d[k]] for a string key: KeyError on a dict without the key, TypeError
    on everything else. *)
Definition getitem (d : json) (k : str) : exc json :=
  match d with
  | JDict kvs => lookup k kvs
  | _ => raise
  end.

(** [v[0]]: the first element of a list, the first character of a str;
    IndexError when empty, KeyError or TypeError on everything else. *)
Definition getitem0 (v : json) : exc json :=
  match v with
  | JList (x :: _) => ret x
  | JStr (c :: _) => ret (JStr [c])
  | _ => raise
  end.

(** [v[:n]]: slices a str or a list, raises on everything else. *)
Definition slice_to (n : nat) (v : json) : exc json :=
  match v with
  | JStr s => ret (JStr (firstn n s))
  | JList l => ret (JList (firstn n l))
  | _ => raise
  end.

(** [v.strip()]: AttributeError unless [v] is a str. *)
Definition strip_method (v : json) : exc str :=
  match v with
  | JStr s => ret (strip s)
  | _ => raise
  end.

(** [for x in v]: the items the loop visits; TypeError when [v] is not
    iterable. A str yields its characters, a dict its keys. *)
Definition iterate (v : json) : exc (list json) :=
  match v with
  | JList l => ret l
  | JStr s => ret (map (fun c => JStr [c]) s)
  | JDict kvs => ret (map (fun kv => JStr (fst kv)) kvs)
  | _ => raise
  end.

(** [isinstance(v, str)] and [v == s] for a str [s]. *)
Definition is_str (v : json) : bool :=
  match v with JStr _ => true | _ => false end.

Definition eq_str (v : json) (s : str) : bool :=
  match v with JStr t => str_eqb t s | _ => false end.

(** [k in d] under [isinstance(d, dict)]. *)
Definition has_key (k : str) (kvs : list (str * json)) : bool :=
  match lookup k kvs with Some _ => true | None => false end.

End Py.
Export Py.

Declare Scope exc_scope.
Delimit Scope exc_scope with exc.
Notation "x <- m ;; k" := (bind m (fun x => k))
  (at level 61, m at next level, right associativity) : exc_scope.

Local Open Scope exc_scope.

(* ================================================================== *)
(** ** The JSON decoder the relay calls *)

(** [json.loads] of the Python library: [None] is any exception it raises. *)
Class JsonLib := { json_loads : str -> option json }.

(** A reference decoder, after CPython's [json.decoder] and [json.scanner]:
    the JSON grammar with the [NaN], [Infinity] and [-Infinity] literals,
    strict strings, surrogate pairs joined and duplicate keys keeping the last
    value. *)
Module Json.

Definition is_ws (c : char) : bool :=
  ((c =? 32) || (c =? 9) || (c =? 10) || (c =? 13))%N.

Fixpoint skip_ws (s : str) : str :=
  match s with
  | c :: r => if is_ws c then skip_ws r else s
  | [] => []
  end.

Definition is_digit (c : char) : bool := ((48 <=? c) && (c <=? 57))%N.

Definition hex_digit (c : char) : option N :=
  (if (48 <=? c) && (c <=? 57) then Some (c - 48)
   else if (65 <=? c) && (c <=? 70) then Some (c - 55)
   else if (97 <=? c) && (c <=? 102) then Some (c - 87)
   else None)%N.

(** Four hexadecimal digits of a [\uXXXX] escape. *)
Definition hex4 (s : str) : option (N * str) :=
  match s with
  | a :: b :: c :: d :: r =>
      match hex_digit a, hex_digit b, hex_digit c, hex_digit d with
      | Some x, Some y, Some z, Some w => Some (((x * 16 + y) * 16 + z) * 16 + w, r)%N
      | _, _, _, _ => None
      end
  | _ => None
  end.

Definition is_high_surrogate (c : N) : bool := ((55296 <=? c) && (c <=? 56319))%N.
Definition is_low_surrogate (c : N) : bool := ((56320 <=? c) && (c <=? 57343))%N.

(** The character of a [\uXXXX] escape whose digits were just read, joined
    with a following low surrogate escape when it is a high surrogate. *)
Definition unicode_escape (c : N) (r : str) : option (char * str) :=
  if is_high_surrogate c then
    match r with
    | 92 :: 117 :: r2 =>
        match hex4 r2 with
        | Some (c2, r3) =>
            if is_low_surrogate c2
            then Some (65536 + (c - 55296) * 1024 + (c2 - 56320), r3)
            else Some (c, r)
        | None => None
        end
    | _ => Some (c, r)
    end%N
  else Some (c, r).

(** The body of a string after its opening quote; [acc] holds the decoded
    characters, last first. [k] bounds the characters left to read. *)
Fixpoint scanstring (k : nat) (s : str) (acc : str) : option (str * str) :=
  match k with
  | O => None
  | S k =>
      match s with
      | [] => None
      | 34 :: r => Some (rev acc, r)
      | 92 :: e :: r =>
          match e with
          | 34 => scanstring k r (34 :: acc)
          | 92 => scanstring k r (92 :: acc)
          | 47 => scanstring k r (47 :: acc)
          | 98 => scanstring k r (8 :: acc)
          | 102 => scanstring k r (12 :: acc)
          | 110 => scanstring k r (10 :: acc)
          | 114 => scanstring k r (13 :: acc)
          | 116 => scanstring k r (9 :: acc)
          | 117 =>
              match hex4 r with
              | Some (c, r1) =>
                  match unicode_escape c r1 with
                  | Some (c', r2) => scanstring k r2 (c' :: acc)
                  | None => None
                  end
              | None => None
              end
          | _ => None
          end
      | c :: r => if c <? 32 then None else scanstring k r (c :: acc)
      end%N
  end.

Fixpoint span_digits (s : str) : str * str :=
  match s with
  | c :: r => if is_digit c then let (d, r') := span_digits r in (c :: d, r') else ([], s)
  | [] => ([], [])
  end.

Definition digits_value (d : str) : Z :=
  fold_left (fun acc c => acc * 10 + Z.of_N (c - 48))%Z d 0%Z.

(** The binary64 nearest to [m * 10 ^ e], [m] positive. *)
Definition float_of_decimal (neg : bool) (m : positive) (e : Z) : spec_float :=
  if (0 <=? e)%Z
  then binary_normalize 53 1024 (cond_Zopp neg (Z.pos m * 10 ^ e)) 0 neg
  else SFdiv 53 1024 (S754_finite neg m 0)
                     (S754_finite false (Z.to_pos (10 ^ (- e))) 0).

(** The integer part: [0], or a non-zero digit and more digits. *)
Definition int_part (s : str) : option (str * str) :=
  match s with
  | 48 :: r => Some ([48], r)
  | c :: r =>
      if is_digit c then let (d, r') := span_digits r in Some (c :: d, r') else None
  | [] => None
  end%N.

Definition frac_part (s : str) : str * str :=
  match s with
  | 46 :: r => match span_digits r with ([], _) => ([], s) | (d, r') => (d, r') end
  | _ => ([], s)
  end%N.

(** The exponent with its sign, when at least one digit follows. *)
Definition exp_part (s : str) : option Z * str :=
  match s with
  | c :: r =>
      if (c =? 101) || (c =? 69) then
        let '(sgn, r1) :=
          match r with
          | 43 :: r1 => (false, r1)
          | 45 :: r1 => (true, r1)
          | _ => (false, r)
          end in
        match span_digits r1 with
        | ([], _) => (None, s)
        | (d, r2) => (Some (if sgn then - digits_value d else digits_value d)%Z, r2)
        end
      else (None, s)
  | [] => (None, s)
  end%N.

(** [int(s)] refuses a decimal text of more than 4300 digits
    ([sys.get_int_max_str_digits()]). *)
Definition int_max_str_digits : nat := 4300.

(** A number after its optional minus sign: an int when it has neither a
    fraction nor an exponent, a float otherwise. An int of too many digits
    raises ValueError. *)
Definition number (neg : bool) (s : str) : option (json * str) :=
  match int_part s with
  | None => None
  | Some (i, r) =>
      let (f, r1) := frac_part r in
      let (e, r2) := exp_part r1 in
      match f, e with
      | [], None =>
          if Nat.ltb int_max_str_digits (length i) then None
          else Some (JInt (if neg then - digits_value i else digits_value i)%Z, r2)
      | _, _ =>
          let ex := (match e with Some z => z | None => 0 end - Z.of_nat (length f))%Z in
          match digits_value (i ++ f) with
          | Zpos m => Some (JFloat (float_of_decimal neg m ex), r2)
          | _ => Some (JFloat (S754_zero neg), r2)
          end
      end
  end.

(** [s] after the literal [lit], when [s] starts with it. *)
Definition after (lit : string) (s : str) : option str :=
  if startswith (u lit) s then Some (skipn (String.length lit) s) else None.

(** The value [v] when [s] starts with the literal [lit]. *)
Definition literal (lit : string) (v : json) (s : str) : option (json * str) :=
  match after lit s with Some r => Some (v, r) | None => None end.

Section Containers.
Variable value : str -> option (json * str).

(** The elements of an array after its first value position. *)
Fixpoint elements (k : nat) (s : str) (acc : list json) : option (json * str) :=
  match k with
  | O => None
  | S k =>
      match value s with
      | None => None
      | Some (v, r) =>
          match skip_ws r with
          | 93 :: r' => Some (JList (acc ++ [v]), r')
          | 44 :: r' => elements k (skip_ws r') (acc ++ [v])
          | _ => None
          end
      end%N
  end.

(** The members of an object from a key position on. *)
Fixpoint members (k : nat) (s : str) (acc : list (str * json)) : option (json * str) :=
  match k with
  | O => None
  | S k =>
      match s with
      | 34 :: r =>
          match scanstring (length r) r [] with
          | None => None
          | Some (key, r1) =>
              match skip_ws r1 with
              | 58 :: r2 =>
                  match value (skip_ws r2) with
                  | None => None
                  | Some (v, r3) =>
                      match skip_ws r3 with
                      | 125 :: r' => Some (JDict (setitem key v acc), r')
                      | 44 :: r' => members k (skip_ws r') (setitem key v acc)
                      | _ => None
                      end
                  end
              | _ => None
              end
          end
      | _ => None
      end%N
  end.
End Containers.

(** One value at the head of [s]; [fuel] is the nesting depth left before
    the scanner raises RecursionError. *)
Fixpoint scan_once (fuel : nat) (s : str) : option (json * str) :=
  match fuel with
  | O => None
  | S n =>
      match s with
      | 34 :: r =>
          match scanstring (length r) r [] with
          | Some (t, r') => Some (JStr t, r')
          | None => None
          end
      | 123 :: r =>
          match skip_ws r with
          | 125 :: r' => Some (JDict [], r')
          | r' => members (scan_once n) (length r') r' []
          end
      | 91 :: r =>
          match skip_ws r with
          | 93 :: r' => Some (JList [], r')
          | r' => elements (scan_once n) (length r') r' []
          end
      | 110 :: _ => literal "null" JNull s
      | 116 :: _ => literal "true" (JBool true) s
      | 102 :: _ => literal "false" (JBool false) s
      | 78 :: _ => literal "NaN" (JFloat S754_nan) s
      | 73 :: _ => literal "Infinity" (JFloat (S754_infinity false)) s
      | 45 :: r =>
          match after "Infinity" r with
          | Some r' => Some (JFloat (S754_infinity true), r')
          | None => number true r
          end
      | _ => number false s
      end%N
  end.

(** [json.loads(s)] for a str: one value between optional white space,
    nested no deeper than [depth]. *)
Definition loads (depth : nat) (s : str) : option json :=
  match s with
  | 65279%N :: _ => None
  | _ =>
      match scan_once depth (skip_ws s) with
      | Some (v, r) => match skip_ws r with [] => Some v | _ => None end
      | None => None
      end
  end.

(** The nesting the scanner accepts is what the interpreter's recursion limit
    leaves when it is called; the reference decoder takes the limit's default
    value. *)
Definition recursion_limit : nat := 1000.

Definition reference : JsonLib := {| json_loads := loads recursion_limit |}.

End Json.

(* ================================================================== *)
(** ** Requests, responses and the upstream API *)

Inductive http_method := POST | OPTIONS.

(** A request to one of the routes: its method and what
    [request.get_json(force=True, silent=True)] returns ([JNull] for None). *)
Record Request := { method : http_method; get_json : json }.

(** A response body: nothing, the text [json.dumps(v)], the chunks a
    generator yields before it ends, or the chunks it yields before it
    raises. *)
Inductive Body :=
| NoBody
| Dumps (v : json)
| Stream (chunks : list bytes)
| Broken (chunks : list bytes).

Record Response := {
  status : Z;
  mimetype : str;
  body : Body;
  headers : list (str * str)
}.

(** What [requests.post] is called with, and what it gives back: an exception
    of the library ([requests.RequestException]), any other exception, or a
    response with its status, its body as text and the lines
    [iter_lines(decode_unicode=True)] yields: text when the response has an
    encoding, the undecoded bytes when it has none. *)
Record upstream_call := {
  url : str;
  req_headers : list (str * str);
  payload : json
}.

Inductive upstream_lines :=
| TextLines (lines : list str)
| ByteLines (lines : list bytes).

Record upstream_response := {
  status_code : Z;
  text : str;
  iter_lines : upstream_lines
}.

Inductive post_result :=
| RequestException (e : str)
| OtherException
| Replied (r : upstream_response).

(** The process environment and the network. *)
Record Env := {
  GROQ_API_KEY : str;
  MODEL : str;
  post : upstream_call -> post_result
}.

(** How a handler ends, and the upstream calls it made on the way. *)
Inductive outcome :=
| Returned (r : Response)
| Raised.

Record run := { calls : list upstream_call; outcome_of : outcome }.

Definition TEMPERATURE : spec_float :=
  Eval vm_compute in Json.float_of_decimal false 2 (-1).
Definition MAX_TOKENS : Z := 800.
Definition BASE_URL : str := u "https://api.groq.com/openai/v1".

(** The number of characters of the selection the handlers keep. *)
Definition selection_limit : nat := 3000.

Definition nl : str := [10%N].

Fixpoint set_header (k v : str) (h : list (str * str)) : list (str * str) :=
  match h with
  | [] => [(k, v)]
  | (k', v') :: r => if str_eqb k k' then (k, v) :: r else (k', v') :: set_header k v r
  end.

Definition add_cors_headers (resp : Response) : Response :=
  {| status := status resp;
     mimetype := mimetype resp;
     body := body resp;
     headers :=
       set_header (u "Access-Control-Allow-Methods") (u "POST, OPTIONS")
         (set_header (u "Access-Control-Allow-Headers") (u "Content-Type, Authorization")
            (set_header (u "Access-Control-Allow-Origin") (u "*") (headers resp))) |}.

(** [Response(status=204)] *)
Definition empty_response (st : Z) : Response :=
  {| status := st; mimetype := u "text/html"; body := NoBody; headers := [] |}.

(** [Response(json.dumps(v), status=st, mimetype="application/json")] *)
Definition json_response (v : json) (st : Z) : Response :=
  {| status := st; mimetype := u "application/json"; body := Dumps v; headers := [] |}.

(** [Response(generate(), mimetype="text/plain; charset=utf-8")], and the
    response of a generator that runs to its end. *)
Definition generator_response (generated : Body) : Response :=
  {| status := 200; mimetype := u "text/plain; charset=utf-8"; body := generated;
     headers := [] |}.

Definition stream_response (chunks : list bytes) : Response :=
  generator_response (Stream chunks).

(** [{"error": msg}] and [{"role": r, "content": c}] *)
Definition error_object (msg : json) : json := JDict [(u "error", msg)].
Definition message (r c : json) : json := JDict [(u "role", r); (u "content", c)].

Definition user_message (c : str) : json := message (JStr (u "user")) (JStr c).

(** The value of a str in an f-string; only strs reach the f-strings of the
    handlers. *)
Definition format (v : json) : exc str :=
  match v with JStr s => ret s | _ => raise end.

(** A handler that returns [resp] without calling upstream, and one that
    raised before it called upstream. *)
Definition respond (resp : Response) : run :=
  {| calls := []; outcome_of := Returned resp |}.
Definition crashed : run := {| calls := []; outcome_of := Raised |}.

(** The loop [for x in items: messages.extend(f(x))], stopped by the first
    exception. *)
Fixpoint collect (f : json -> exc (list json)) (items : list json) : exc (list json) :=
  match items with
  | [] => ret []
  | x :: r => a <- f x ;; b <- collect f r ;; ret (a ++ b)
  end.

(** The messages one history entry contributes. *)
Definition history_entry (m : json) : list json :=
  match m with
  | JDict kvs =>
      if has_key (u "role") kvs && has_key (u "content") kvs then
        match lookup (u "role") kvs, lookup (u "content") kvs with
        | Some r, Some c => [message r c]
        | _, _ => []
        end
      else []
  | _ => []
  end.

(** [for m in history: ...] *)
Definition history_messages (history : json) : exc (list json) :=
  items <- iterate history ;; ret (flat_map history_entry items).

Definition role_allowed (role : json) : bool :=
  eq_str role (u "user") || eq_str role (u "assistant").

(** The body of the popup loop of [branch]. *)
Definition popup_turn (t : json) : exc (list json) :=
  role <- get t (u "role") ;;
  c <- get t (u "content") ;;
  let content := por c (JStr []) in
  if role_allowed role && is_str content then ret [message role content] else ret [].

(** The body of the popup loop of [branch_summary]. *)
Definition transcript_turn (t : json) : exc (list json) :=
  role <- get t (u "role") ;;
  c <- get t (u "content") ;;
  let content := por c (JStr []) in
  if role_allowed role && is_str content then
    let prefix := if eq_str role (u "user") then u "User:" else u "Assistant:" in
    text <- format content ;;
    ret [user_message (prefix ++ u " " ++ text)]
  else ret [].

(** The block of [branch_summary] that provides the popup transcript: a
    header and the turns when [popup_turns] is true, nothing otherwise. *)
Definition transcript_header : json :=
  user_message (u "Below is the branch conversation transcript:").

Definition transcript_messages (popup_turns : json) : exc (list json) :=
  if truthy popup_turns then
    items <- iterate popup_turns ;;
    turns <- collect transcript_turn items ;;
    ret (transcript_header :: turns)
  else ret [].

Definition summary_instruction : str :=
  u "Write a concise summary of the branch conversation for a student." ++ nl
  ++ u "- 5" ++ [8211%N] ++ u "8 bullet points" ++ nl
  ++ u "- 1-line key takeaway at the end" ++ nl
  ++ u "- Do NOT repeat the full selected text; focus on the conversation's conclusions and clarifications.".

Definition selected_context (selection : str) : json :=
  user_message (u "Selected Context:" ++ nl ++ selection).

Section Relay.
Context {L : JsonLib}.

(** [event["choices"][0]["delta"].get("content", "")] *)
Definition event_delta (event : json) : exc json :=
  choices <- getitem event (u "choices") ;;
  first <- getitem0 choices ;;
  d <- getitem first (u "delta") ;;
  get_default d (u "content") (JStr []).

(** The [try] block of [generate] on one payload: [None] when it raises,
    [Some None] when it yields nothing, [Some (Some b)] when it yields [b]. *)
Definition try_frame (data_str : str) : exc (option bytes) :=
  event <- json_loads data_str ;;
  delta <- event_delta event ;;
  if truthy delta then
    match delta with
    | JStr s => b <- encode_utf8 s ;; ret (Some b)
    | _ => raise
    end
  else ret None.

(** The chunks the generator yields over the upstream lines. *)
Fixpoint generate (lines : list str) : list bytes :=
  match lines with
  | [] => []
  | line :: rest =>
      if negb (truthy (JStr line)) then generate rest
      else if startswith (u "data: ") line then
        let data_str := strip (skipn (length (u "data: ")) line) in
        if str_eqb data_str (u "[DONE]") then []
        else
          match try_frame data_str with
          | Some (Some chunk) => chunk :: generate rest
          | Some None => generate rest
          | None => generate rest
          end
      else generate rest
  end.

(** The generator over undecoded lines: an empty line is skipped, and on the
    first line that is not empty [line.startswith("data: ")] raises TypeError,
    outside the [try] block. [true] when it raises. *)
Fixpoint generate_undecoded (lines : list bytes) : bool :=
  match lines with
  | [] => false
  | [] :: rest => generate_undecoded rest
  | _ :: _ => true
  end.

(** What the generator does over the lines of a response. *)
Definition generated (lines : upstream_lines) : Body :=
  match lines with
  | TextLines lines => Stream (generate lines)
  | ByteLines lines => if generate_undecoded lines then Broken [] else Stream []
  end.

(** The body relayed for an upstream answer that is not 200. *)
Definition relayed_error (r : upstream_response) : json :=
  match json_loads (text r) with
  | Some body =>
      match body with
      | JDict kvs =>
          match lookup (u "error") kvs with
          | Some (JDict e) =>
              match lookup (u "message") e with
              | Some m => error_object m
              | None => body
              end
          | _ => body
          end
      | _ => body
      end
  | None => error_object (por (JStr (text r)) (JStr (u "Unknown error from Groq")))
  end.

Variable env : Env.

Definition completion_call (messages : json) : upstream_call :=
  {| url := BASE_URL ++ u "/chat/completions";
     req_headers :=
       [(u "Authorization", u "Bearer " ++ GROQ_API_KEY env);
        (u "Content-Type", u "application/json")];
     payload :=
       JDict [(u "model", JStr (MODEL env));
              (u "messages", messages);
              (u "temperature", JFloat TEMPERATURE);
              (u "max_tokens", JInt MAX_TOKENS);
              (u "stream", JBool true)] |}.

(** Only a [requests.RequestException] of the call is caught; any other
    exception leaves the handler. *)
Definition stream_completion (messages : json) : run :=
  let c := completion_call messages in
  {| calls := [c];
     outcome_of :=
       match post env c with
       | RequestException e =>
           Returned
             (add_cors_headers
                (json_response
                   (error_object (JStr (u "Network error contacting Groq: " ++ e))) 502))
       | OtherException => Raised
       | Replied r =>
           Returned
             (if negb (status_code r =? 200)%Z then
                add_cors_headers (json_response (relayed_error r) (status_code r))
              else add_cors_headers (generator_response (generated (iter_lines r))))
       end |}.

(** What every route does first: [None] when the handler goes on. *)
Definition preamble (req : Request) : option Response :=
  match method req with
  | OPTIONS => Some (add_cors_headers (empty_response 204))
  | POST =>
      if negb (truthy (JStr (GROQ_API_KEY env))) then
        Some (add_cors_headers
                (json_response (error_object (JStr (u "GROQ_API_KEY missing"))) 500))
      else None
  end.

(** The end of a handler: an early response, the relay of an assembled
    list, or an unhandled exception. *)
Definition finish (r : exc (Response + list json)) : run :=
  match r with
  | None => crashed
  | Some (inl resp) => respond resp
  | Some (inr messages) => stream_completion (JList messages)
  end.

Definition bad_request (msg : string) : Response :=
  add_cors_headers (json_response (error_object (JStr (u msg))) 400).

Definition chat (req : Request) : run :=
  match preamble req with
  | Some resp => respond resp
  | None =>
      let data := por (get_json req) (JDict []) in
      match get_default data (u "messages") (JList []) with
      | Some messages => stream_completion messages
      | None => crashed
      end
  end.

Definition branch_body (req : Request) : exc (Response + list json) :=
  let data := por (get_json req) (JDict []) in
  sel <- get data (u "selection") ;;
  selection <- slice_to selection_limit (por sel (JStr [])) ;;
  h <- get data (u "history") ;;
  let history := por h (JList []) in
  q <- get data (u "question") ;;
  question <- strip_method (por q (JStr [])) ;;
  p <- get data (u "popup_turns") ;;
  let popup_turns := por p (JList []) in
  stripped <- strip_method selection ;;
  if negb (truthy (JStr stripped)) then ret (inl (bad_request "selection required"))
  else
    hist <- history_messages history ;;
    context <- format selection ;;
    let messages := hist ++ [selected_context context] in
    if truthy popup_turns then
      items <- iterate popup_turns ;;
      turns <- collect popup_turn items ;;
      ret (inr (messages ++ turns))
    else if truthy (JStr question) then
      ret (inr (messages ++ [user_message question]))
    else ret (inl (bad_request "Provide either popup_turns or question")).

Definition branch (req : Request) : run :=
  match preamble req with
  | Some resp => respond resp
  | None => finish (branch_body req)
  end.

Definition branch_summary_body (req : Request) : exc (Response + list json) :=
  let data := por (get_json req) (JDict []) in
  sel <- get data (u "selection") ;;
  selection <- slice_to selection_limit (por sel (JStr [])) ;;
  p <- get data (u "popup_turns") ;;
  let popup_turns := por p (JList []) in
  h <- get data (u "history") ;;
  let history := por h (JList []) in
  stripped <- strip_method selection ;;
  if negb (truthy (JStr stripped)) then ret (inl (bad_request "selection required"))
  else
    hist <- history_messages history ;;
    context <- format selection ;;
    let messages := hist ++ [selected_context context] in
    transcript <- transcript_messages popup_turns ;;
    ret (inr (messages ++ transcript ++ [user_message summary_instruction])).

Definition branch_summary (req : Request) : run :=
  match preamble req with
  | Some resp => respond resp
  | None => finish (branch_summary_body req)
  end.

End Relay.

(** The hook Flask runs on every response a handler returns
    ([@app.after_request]). *)
Definition after (resp : Response) : Response := add_cors_headers resp.

(* ================================================================== *)
(** ** Configuration: the .env loader and the process environment

    [os.environ] is an association list from names to values, and the .env
    file is the list of lines its iteration yields before it ends or fails
    to read; [None] is a file that does not exist or cannot be opened. The
    platform is POSIX with a UTF-8 file system encoding. *)

Definition environment := list (str * str).

(** [os.environ.get(k)], [k in os.environ] and [os.environ.get(k, default)]. *)
Fixpoint environ_lookup (k : str) (environ : environment) : option str :=
  match environ with
  | [] => None
  | (k', v) :: r => if str_eqb k k' then Some v else environ_lookup k r
  end.

Definition in_environ (k : str) (environ : environment) : bool :=
  match environ_lookup k environ with Some _ => true | None => false end.

Definition environ_get (k default : str) (environ : environment) : str :=
  match environ_lookup k environ with Some v => v | None => default end.

(** [c in s] for a character. *)
Definition contains (c : char) (s : str) : bool := existsb (N.eqb c) s.

(** [os.environ[k] = v]: ValueError when the name or the value holds a NUL
    character; otherwise the value of an existing name is replaced and a new
    name is added. *)
Fixpoint environ_store (k v : str) (environ : environment) : environment :=
  match environ with
  | [] => [(k, v)]
  | (k', v') :: r =>
      if str_eqb k k' then (k, v) :: r else (k', v') :: environ_store k v r
  end.

Definition environ_set (k v : str) (environ : environment) : exc environment :=
  if contains 0%N k || contains 0%N v then raise else ret (environ_store k v environ).

(** [s.strip(chars)] *)
Fixpoint lstrip_chars (chars s : str) : str :=
  match s with
  | c :: r => if contains c chars then lstrip_chars chars r else s
  | [] => []
  end.

Definition strip_chars (chars s : str) : str :=
  rev (lstrip_chars chars (rev (lstrip_chars chars s))).

(** [s.split(sep, 1)] for a one-character separator that occurs in [s]: the
    text before its first occurrence and the text after it. *)
Fixpoint split_once (sep : char) (s : str) : str * str :=
  match s with
  | [] => ([], [])
  | c :: r =>
      if (c =? sep)%N then ([], r)
      else let (a, b) := split_once sep r in (c :: a, b)
  end.

(** The loop of [load_dotenv_manual] over the lines of the file. An
    exception of [os.environ[k] = v] ends it: [except Exception: pass]. *)
Fixpoint read_lines (lines : list str) (environ : environment) : environment :=
  match lines with
  | [] => environ
  | line :: rest =>
      let line := strip line in
      if negb (truthy (JStr line)) || startswith (u "#") line || negb (contains 61%N line)
      then read_lines rest environ
      else
        let (k, v) := split_once 61%N line in
        let k := strip k in
        let v := strip_chars [39%N] (strip_chars [34%N] (strip v)) in
        if truthy (JStr k) && negb (in_environ k environ) then
          match environ_set k v environ with
          | Some environ' => read_lines rest environ'
          | None => environ
          end
        else read_lines rest environ
  end.

Definition load_dotenv_manual
  (dotenv : option (list str)) (environ : environment) : environment :=
  match dotenv with
  | None => environ
  | Some lines => read_lines lines environ
  end.

(** The module-level configuration read after the loader ran. *)
Definition configure (environ : environment) (network : upstream_call -> post_result) : Env :=
  {| GROQ_API_KEY := environ_get (u "GROQ_API_KEY") [] environ;
     MODEL := environ_get (u "GROQ_MODEL") (u "llama-3.3-70b-versatile") environ;
     post := network |}.

Definition startup
  (dotenv : option (list str)) (environ : environment)
  (network : upstream_call -> post_result) : Env :=
  configure (load_dotenv_manual dotenv environ) network.

(* ================================================================== *)
(** ** Vocabulary of the properties *)

(** What [generate] does with one upstream line. *)
Inductive frame :=
| Ignored            (* empty, or without the "data: " prefix *)
| Done               (* the [DONE] sentinel *)
| Malformed          (* the try block raised *)
| Silent             (* a decoded event without a content delta *)
| Chunk (b : bytes). (* a decoded event and its encoded delta *)

Section Frames.
Context {L : JsonLib}.

Definition classify (line : str) : frame :=
  if negb (truthy (JStr line)) then Ignored
  else if startswith (u "data: ") line then
    let data_str := strip (skipn (length (u "data: ")) line) in
    if str_eqb data_str (u "[DONE]") then Done
    else
      match try_frame data_str with
      | Some (Some b) => Chunk b
      | Some None => Silent
      | None => Malformed
      end
  else Ignored.



End Frames.

(** The bytes a response streams, and the two shapes of a relay response. *)
Definition streamed_bytes (resp : Response) : bytes :=
  match body resp with
  | Stream chunks | Broken chunks => concat chunks
  | _ => []
  end.

Definition is_stream (resp : Response) : bool :=
  match body resp with Stream _ | Broken _ => true | _ => false end.

Definition is_json_error (resp : Response) : bool :=
  match body resp with
  | Dumps _ => str_eqb (mimetype resp) (u "application/json")
  | _ => false
  end.

(** The upstream status check: what [stream_completion] looks at before it
    builds its response. *)
Definition upstream_ok (p : post_result) : bool :=
  match p with
  | Replied r => (status_code r =? 200)%Z
  | RequestException _ | OtherException => false
  end.

(** The message of an error body of the shape [{"error": {"message": m}}]. *)
Definition nested_message (v : json) : option json :=
  match v with
  | JDict kvs =>
      match lookup (u "error") kvs with
      | Some (JDict e) => lookup (u "message") e
      | _ => None
      end
  | _ => None
  end.

(** The [messages] entry of the payload of an upstream call. *)
Definition sent_messages (c : upstream_call) : option json :=
  match payload c with JDict kvs => lookup (u "messages") kvs | _ => None end.

(** The request body as the handlers read it: the items of
    [get_json(...) or {}], the value of [data.get(k)], and a field read as
    text by [(data.get(k) or "")]. *)
Definition body_fields (req : Request) : option (list (str * json)) :=
  match por (get_json req) (JDict []) with JDict kvs => Some kvs | _ => None end.

Definition field (k : string) (kvs : list (str * json)) : json :=
  match lookup (u k) kvs with Some v => v | None => JNull end.

Definition text_field (k : string) (kvs : list (str * json)) : option str :=
  match por (field k kvs) (JStr []) with JStr s => Some s | _ => None end.

(** The response of a rejected request, without an upstream call. *)
Definition rejected (msg : string) : run :=
  {| calls := []; outcome_of := Returned (bad_request msg) |}.

(** The role of a message is "user" or "assistant". *)
Definition has_chat_role (m : json) : bool :=
  match m with
  | JDict kvs =>
      match lookup (u "role") kvs with Some r => role_allowed r | None => false end
  | _ => false
  end.

(** The assignment a line of the .env file asks for: nothing for a blank
    line, a comment, a line without "=" and a line with an empty name. *)
Definition dotenv_entry (line : str) : option (str * str) :=
  let line := strip line in
  if negb (truthy (JStr line)) || startswith (u "#") line || negb (contains 61%N line)
  then None
  else
    let (k, v) := split_once 61%N line in
    if truthy (JStr (strip k))
    then Some (strip k, strip_chars [39%N] (strip_chars [34%N] (strip v)))
    else None.

(** A name or value [os.environ] accepts. *)
Definition storable (s : str) : bool := negb (contains 0%N s).

(** [s] neither starts nor ends with a character of [chars], and neither
    starts nor ends with white space. *)
Definition first_char (s : str) : option char :=
  match s with c :: _ => Some c | [] => None end.

Definition edge_free (p : char -> bool) (s : str) : bool :=
  match first_char s, first_char (rev s) with
  | Some a, Some z => negb (p a) && negb (p z)
  | _, _ => true
  end.

(** The characters "=", the double quote and the apostrophe. *)
Definition eq_sign : char := 61%N.
Definition dquote : char := 34%N.
Definition squote : char := 39%N.

(** A character the loader removes from the ends of a value: white space, a
    double quote or an apostrophe. *)
Definition value_edge (c : char) : bool :=
  isspace c || contains c [34%N] || contains c [39%N].

(** Dropping a leading run of characters, and trimming both ends: the shape
    [strip()] and [strip(chars)] share. *)
Fixpoint ldrop (p : char -> bool) (s : str) : str :=
  match s with
  | c :: r => if p c then ldrop p r else s
  | [] => []
  end.

Definition trim (p : char -> bool) (s : str) : str :=
  rev (ldrop p (rev (ldrop p s))).

(** The value of a response header. *)
Fixpoint header (k : str) (h : list (str * str)) : option str :=
  match h with
  | [] => None
  | (k', v) :: r => if str_eqb k k' then Some v else header k r
  end.

(** The decoded text a "data: " payload carries: the non-empty str content
    of its delta. *)
Definition frame_text {L : JsonLib} (data_str : str) : option str :=
  match json_loads data_str with
  | Some event =>
      match event_delta event with
      | Some (JStr (c :: r)) => Some (c :: r)
      | _ => None
      end
  | None => None
  end.

(** The text an upstream line carries: that of its payload when the line
    has the "data: " prefix and is not the sentinel. *)
Definition line_text {L : JsonLib} (line : str) : option str :=
  if startswith (u "data: ") line then
    let data_str := strip (skipn (length (u "data: ")) line) in
    if str_eqb data_str (u "[DONE]") then None else frame_text data_str
  else None.

Definition is_done {L : JsonLib} (line : str) : bool :=
  match classify line with Done => true | _ => false end.

(** The payload of a "data: " line, and the line that carries the sentinel. *)
Definition data_of (line : str) : str := strip (skipn (length (u "data: ")) line).


(** A character UTF-8 encodes: a code point that is not a surrogate. *)
Definition scalar_value (c : char) : bool :=
  ((c <? 55296) || (57343 <? c) && (c <? 1114112))%N.




(** The three routes. *)
Inductive route := Chat | Branch | BranchSummary.

Definition handle {L : JsonLib} (rt : route) (env : Env) (req : Request) : run :=
  match rt with
  | Chat => chat env req
  | Branch => branch env req
  | BranchSummary => branch_summary env req
  end.

(** *** The message lists as the specification words them

    A history entry is well formed when it is an object with a role and a
    content, and is forwarded as such; a popup turn is well formed when its
    role is "user" or "assistant" and its content (nothing counting as the
    empty text) is text. *)
Definition well_formed_entry (m : json) : bool :=
  match m with
  | JDict kvs => has_key (u "role") kvs && has_key (u "content") kvs
  | _ => false
  end.

Definition forwarded (m : json) : json :=
  match m with
  | JDict kvs => message (field "role" kvs) (field "content" kvs)
  | _ => JNull
  end.

(** The role and the content of a message. *)
Definition role_of (m : json) : json :=
  match m with JDict kvs => field "role" kvs | _ => JNull end.

Definition content_of (m : json) : json :=
  match m with JDict kvs => field "content" kvs | _ => JNull end.

Definition turn_role (t : json) : json :=
  match t with JDict kvs => field "role" kvs | _ => JNull end.

Definition turn_content (t : json) : json :=
  match t with JDict kvs => por (field "content" kvs) (JStr []) | _ => JNull end.

Definition well_formed_turn (t : json) : bool :=
  role_allowed (turn_role t) && is_str (turn_content t).

Definition kept_turn (t : json) : json := message (turn_role t) (turn_content t).

Definition reframed (t : json) : json :=
  user_message
    ((if eq_str (turn_role t) (u "user") then u "User:" else u "Assistant:")
       ++ u " " ++ match turn_content t with JStr c => c | _ => [] end).

(** History, selection context, then the transcript header and the re-framed
    turns when there are turns, then the instruction. *)
Definition summary_messages_spec
  (history turns : list json) (selection : str) : list json :=
  map forwarded (filter well_formed_entry history)
    ++ [selected_context selection]
    ++ match turns with
       | [] => []
       | _ => transcript_header :: map reframed (filter well_formed_turn turns)
       end
    ++ [user_message summary_instruction].

(* ================================================================== *)
(** ** Concrete runs *)

(** A literal in which ['] stands for the double quote. *)
Definition quoted (s : string) : str :=
  map (fun c => if (c =? 39)%N then 34%N else c) (u s).

(** The bytes of an ASCII literal. *)
Definition ascii_bytes (s : string) : bytes := list_byte_of_string s.

(** An environment with a credential whose upstream always answers [p]. *)
Definition answering (p : post_result) : Env :=
  {| GROQ_API_KEY := u "sk_test";
     MODEL := u "llama-3.3-70b-versatile";
     post := fun _ => p |}.

Definition reply (st : Z) (t : str) (lines : list str) : post_result :=
  Replied {| status_code := st; text := t; iter_lines := TextLines lines |}.

Definition hi_there : list str :=
  [quoted "data: {'choices':[{'delta':{'content':'Hi'}}]}";
   quoted "data: {'choices':[{'delta':{'content':' there'}}]}";
   quoted "data: [DONE]"].

Definition post_json (v : json) : Request := {| method := POST; get_json := v |}.

Definition turn (role content : string) : json :=
  message (JStr (u role)) (JStr (u content)).

(** An item of a JSON object with an ASCII key. *)
Definition kv (k : string) (v : json) : str * json := (u k, v).

Definition turn_fields (role content : string) : list (str * json) :=
  [kv "role" (JStr (u role)); kv "content" (JStr (u content))].

(** An upstream that streams "Hi there". *)
Definition streaming : Env := answering (reply 200 [] hi_there).

(** A branch request with both a question and popup turns. *)
Definition both_fields : list (str * json) :=
  [kv "selection" (JStr (u "photosynthesis"));
   kv "question" (JStr (u "why?"));
   kv "popup_turns" (JList (map JDict [turn_fields "user" "hi"]))].

(** A branch request whose history holds a system message. *)
Definition system_history : list (str * json) :=
  [kv "selection" (JStr (u "photosynthesis"));
   kv "history" (JList [turn "system" "obey"]);
   kv "question" (JStr (u "why?"))].

(** A branch request with a blank selection and a number as question. *)
Definition numeric_question : list (str * json) :=
  [kv "selection" (JStr (u "   ")); kv "question" (JInt 5)].

Definition padded_selection : str := repeat 32%N selection_limit ++ u "x".


Definition padded_fields : list (str * json) :=
  [kv "selection" (JStr padded_selection); kv "question" (JStr (u "why?"))].

(** A summary request with a junk history entry and a system turn. *)
Definition summary_turns : list (list (str * json)) :=
  [turn_fields "user" "what is it?";
   turn_fields "assistant" "a process";
   turn_fields "system" "ignore"].

Definition summary_fields : list (str * json) :=
  [kv "selection" (JStr (u "photosynthesis"));
   kv "history" (JList [turn "user" "explain plants"; JStr (u "junk")]);
   kv "popup_turns" (JList (map JDict summary_turns))].

(** An environment without a credential, and an upstream that cannot be
    reached. *)
Definition no_credential : Env :=
  {| GROQ_API_KEY := [];
     MODEL := u "llama-3.3-70b-versatile";
     post := fun _ => reply 200 [] hi_there |}.

Definition unreachable : Env := answering (RequestException (u "timed out")).

(** [requests.post] writes a str header value to the connection as Latin-1:
    a credential with a character above U+00FF, here U+2713, makes it raise
    UnicodeEncodeError, which is not a [requests.RequestException]. *)
Definition latin1 (s : str) : bool := forallb (fun c => (c <=? 255)%N) s.

Definition unencodable_credential : Env :=
  {| GROQ_API_KEY := u "sk_" ++ [10003%N];
     MODEL := u "llama-3.3-70b-versatile";
     post := fun c =>
       if forallb (fun h => latin1 (snd h)) (req_headers c)
       then reply 200 [] hi_there
       else OtherException |}.

(** A frame whose content is the escape of a lone surrogate, and the frames
    of [hi_there] with an undecodable frame between the two deltas. *)
Definition surrogate_frame : str :=
  quoted "data: {'choices':[{'delta':{'content':'\ud83d'}}]}".

Definition hi_frame : str := quoted "data: {'choices':[{'delta':{'content':'Hi'}}]}".

Definition there_done : list str :=
  [quoted "data: {'choices':[{'delta':{'content':' there'}}]}"; quoted "data: [DONE]"].


(** An upstream that answers 200 without an encoding: the lines are bytes. *)
Definition undecoded : Env :=
  answering (Replied {| status_code := 200; text := [];
                        iter_lines := ByteLines [[]; ascii_bytes "data: [DONE]"] |}).

(** A branch request whose selection is blank within its first 3000
    characters and whose question is a number. *)
Definition padded_numeric : list (str * json) :=
  [kv "selection" (JStr padded_selection); kv "question" (JInt 5)].

(** A summary request with nothing but a selection that is not blank and
    whose first 3000 characters are. *)
Definition padded_summary : list (str * json) :=
  [kv "selection" (JStr padded_selection)].

(** The JSON error a route answers with status [st]. *)
Definition error_response (msg : string) (st : Z) : Response :=
  add_cors_headers (json_response (error_object (JStr (u msg))) st).

(** The .env file of the loader's docstring, with a comment, a value in
    quotes and a second definition of the credential. *)
Definition sample_dotenv : list str :=
  [u "# Groq settings" ++ nl;
   nl;
   quoted "GROQ_API_KEY = 'sk_xxx'" ++ nl;
   u "GROQ_MODEL=llama-3.3-70b-versatile" ++ nl;
   u "GROQ_API_KEY=sk_other" ++ nl].

(** A process environment that already holds a credential. *)
Definition preset_environ : environment := [(u "GROQ_API_KEY", u "sk_live")].

(** The network of [streaming]. *)
Definition hi_network : upstream_call -> post_result :=
  fun _ => reply 200 [] hi_there.

(** A .env line whose value holds a NUL character. *)
Definition nul_line : str := u "A=x" ++ [0%N] ++ u "y".

(** A summary request with a popup turn that is not an object. *)
Definition junk_turn_fields : list (str * json) :=
  [kv "selection" (JStr (u "photosynthesis"));
   kv "question" (JStr (u "why?"));
   kv "popup_turns" (JList [JDict (turn_fields "user" "hi"); JStr (u "junk")])].

Definition blank_fields : list (str * json) :=
  [kv "selection" (JStr (u "   ")); kv "question" (JStr (u "why?"));
   kv "popup_turns" (JList (map JDict [turn_fields "user" "hi"]))].


Definition system_call : upstream_call :=
  completion_call streaming
    (JList [turn "system" "obey"; selected_context (u "photosynthesis");
            user_message (u "why?")]).

(** Frames with an undecodable payload, a comment line and an event without
    content between the two deltas, and a delta after the sentinel. *)
Definition noisy_stream : list str :=
  [quoted "data: {'choices':[{'delta':{'content':'Hi'}}]}";
   quoted "data: {oops";
   quoted ": keep-alive";
   quoted "data: {'choices':[{'delta':{'role':'assistant'}}]}";
   quoted "data: {'choices':[]}";
   quoted "data: {'choices':[{'delta':{'content':' there'}}]}";
   quoted "data: [DONE]";
   quoted "data: {'choices':[{'delta':{'content':'late'}}]}"].

(* ================================================================== *)
(** ** Strings *)

Lemma str_eqb_eq a b : str_eqb a b = true <-> a = b.
Proof. unfold str_eqb; destruct (list_eq_dec N.eq_dec a b); intuition congruence. Qed.

Lemma str_eqb_refl a : str_eqb a a = true.
Proof. now apply str_eqb_eq. Qed.

Lemma lstrip_nil_iff s : lstrip s = [] <-> forallb isspace s = true.
Proof.
  induction s as [|c r IH]; simpl; [tauto|].
  destruct (isspace c); simpl; [exact IH|].
  split; discriminate.
Qed.

Lemma lstrip_head s c r : lstrip s = c :: r -> isspace c = false.
Proof.
  induction s as [|a t IH]; simpl; [discriminate|].
  destruct (isspace a) eqn:E; [exact IH|].
  now intros [= <- _].
Qed.

Lemma forallb_rev {A} (f : A -> bool) l : forallb f (rev l) = forallb f l.
Proof.
  induction l as [|a l IH]; simpl; [reflexivity|].
  rewrite forallb_app, IH; simpl. rewrite andb_true_r. apply andb_comm.
Qed.

(** A str strips to nothing exactly when all its characters are white space. *)
Lemma strip_nil_iff s : strip s = [] <-> forallb isspace s = true.
Proof.
  unfold strip, rstrip. split.
  - intros H.
    assert (H1 : lstrip (rev (lstrip s)) = []).
    { destruct (lstrip (rev (lstrip s))) as [|a l] eqn:E; [reflexivity|].
      simpl in H. now destruct (rev l). }
    apply lstrip_nil_iff in H1. rewrite forallb_rev in H1.
    destruct (lstrip s) as [|c r] eqn:E; [now apply lstrip_nil_iff|].
    apply lstrip_head in E. simpl in H1. now rewrite E in H1.
  - intros H. apply lstrip_nil_iff in H. now rewrite H.
Qed.

Lemma forallb_firstn {A} (f : A -> bool) n l :
  forallb f l = true -> forallb f (firstn n l) = true.
Proof.
  revert l; induction n as [|n IH]; intros [|a l]; simpl; auto.
  intros H; apply andb_true_iff in H as [-> H]. now apply IH.
Qed.

Lemma strip_firstn_nil n s : strip s = [] -> strip (firstn n s) = [].
Proof. rewrite !strip_nil_iff. apply forallb_firstn. Qed.

Lemma truthy_str_false s : truthy (JStr s) = false <-> s = [].
Proof. destruct s; simpl; split; congruence. Qed.

(* ================================================================== *)
(** ** The limits of the reference decoder *)

Lemma span_digits_all d :
  forallb Json.is_digit d = true -> Json.span_digits d = (d, []).
Proof.
  induction d as [|c r IH]; cbn [forallb Json.span_digits]; [reflexivity|].
  intros H. apply andb_true_iff in H as [-> H]. now rewrite (IH H).
Qed.

(** An int is read up to 4300 digits and refused beyond. *)
Lemma number_int_limit neg d :
  forallb Json.is_digit d = true ->
  Json.number neg (49%N :: d) =
  if Nat.ltb 4300 (length (49%N :: d)) then None
  else Some (JInt (if neg then - Json.digits_value (49%N :: d)
                   else Json.digits_value (49%N :: d))%Z, []).
Proof.
  intros H. unfold Json.number.
  change (Json.int_part (49%N :: d))
    with (let (x, r') := Json.span_digits d in Some (49%N :: x, r')).
  rewrite (span_digits_all d H). reflexivity.
Qed.

Lemma scan_once_nested fuel r :
  Json.scan_once fuel (91%N :: r) = None ->
  Json.scan_once (S fuel) (91%N :: 91%N :: r) = None.
Proof.
  intros H.
  change (Json.scan_once (S fuel) (91%N :: 91%N :: r))
    with (Json.elements (Json.scan_once fuel) (S (length r)) (91%N :: r) []).
  cbn [Json.elements]. now rewrite H.
Qed.

(** A document that opens more arrays than the depth allows is refused. *)
Lemma scan_once_depth n rest :
  Json.scan_once n (repeat 91%N (S n) ++ rest) = None.
Proof.
  induction n as [|n IH]; [reflexivity|].
  change (repeat 91%N (S (S n)) ++ rest) with (91%N :: 91%N :: repeat 91%N n ++ rest).
  apply scan_once_nested. exact IH.
Qed.

Lemma loads_depth depth rest :
  Json.loads depth (repeat 91%N (S depth) ++ rest) = None.
Proof.
  unfold Json.loads.
  change (repeat 91%N (S depth) ++ rest) with (91%N :: repeat 91%N depth ++ rest).
  change (Json.skip_ws (91%N :: repeat 91%N depth ++ rest))
    with (repeat 91%N (S depth) ++ rest).
  now rewrite scan_once_depth.
Qed.

(* ================================================================== *)
(** ** The stream decoder *)

Section Decoder.
Context {L : JsonLib}.

Lemma generate_cons line rest :
  generate (line :: rest) =
  match classify line with
  | Done => []
  | Chunk b => b :: generate rest
  | _ => generate rest
  end.
Proof.
  unfold classify. cbn [generate].
  destruct (negb (truthy (JStr line))); [reflexivity|].
  destruct (startswith (u "data: ") line); [|reflexivity].
  destruct (str_eqb _ (u "[DONE]")); [reflexivity|].
  destruct (try_frame _) as [[b|]|]; reflexivity.
Qed.




Lemma classify_prefixed p :
  classify (u "data: " ++ p) =
  if str_eqb (strip p) (u "[DONE]") then Done
  else match try_frame (strip p) with
       | Some (Some b) => Chunk b
       | Some None => Silent
       | None => Malformed
       end.
Proof. reflexivity. Qed.

Lemma classify_unprefixed line :
  startswith (u "data: ") line = false -> classify line = Ignored.
Proof.
  intros H. unfold classify. rewrite H. now destruct (negb _).
Qed.
End Decoder.

Lemma encode_char_nonempty c bs : encode_char c = Some bs -> bs <> [].
Proof.
  unfold encode_char.
  repeat match goal with
         | |- context [if ?b then _ else _] => destruct b
         end; intros [= <-]; discriminate.
Qed.

Lemma encode_utf8_nonempty c r bs : encode_utf8 (c :: r) = Some bs -> bs <> [].
Proof.
  cbn [encode_utf8]. destruct (encode_char c) as [x|] eqn:E; [|discriminate].
  destruct (encode_utf8 r) as [y|]; [|discriminate]. intros [= <-].
  apply encode_char_nonempty in E. now destruct x.
Qed.

(** The encoding of a text is the encodings of its parts, one after the
    other. *)
Lemma encode_utf8_app (a t : str) :
  encode_utf8 (a ++ t) =
  match encode_utf8 a, encode_utf8 t with
  | Some x, Some y => Some (x ++ y)
  | _, _ => None
  end.
Proof.
  induction a as [|c r IH]; cbn [app encode_utf8].
  - now destruct (encode_utf8 t).
  - rewrite IH. destruct (encode_char c) as [x|]; [|reflexivity].
    destruct (encode_utf8 r) as [y|]; [|reflexivity].
    destruct (encode_utf8 t) as [z|]; [|reflexivity].
    now rewrite app_assoc.
Qed.

Section Stream.
Context {L : JsonLib}.

Lemma try_frame_text data_str chunk :
  try_frame data_str = Some (Some chunk) <->
  exists s, frame_text data_str = Some s /\ encode_utf8 s = Some chunk.
Proof.
  assert (Hno : forall (a : exc (option bytes)) (t : option str),
             a <> Some (Some chunk) -> t = None ->
             a = Some (Some chunk) <-> exists s, t = Some s /\ encode_utf8 s = Some chunk).
  { intros a t Ha ->. split; [contradiction|]. intros (s & H & _). discriminate. }
  unfold try_frame, frame_text.
  destruct (json_loads data_str) as [event|]; cbn [bind];
    [|apply Hno; [discriminate|reflexivity]].
  destruct (event_delta event) as [delta|]; cbn [bind];
    [|apply Hno; [discriminate|reflexivity]].
  destruct delta as [|flag|z|f|[|c r]|[|x l]|[|kv kvs]]; cbn [truthy];
    try (apply Hno; [discriminate|reflexivity]).
  - destruct flag; apply Hno; (discriminate || reflexivity).
  - destruct (negb (z =? 0)%Z); apply Hno; (discriminate || reflexivity).
  - destruct f; apply Hno; (discriminate || reflexivity).
  - destruct (encode_utf8 (c :: r)) as [bs|] eqn:E; cbn [bind ret].
    + split.
      * intros [= <-]. eauto.
      * intros (s & [= <-] & H). rewrite E in H. now injection H as <-.
    + split; [discriminate|]. intros (s & [= <-] & H). rewrite E in H. discriminate.
Qed.

Lemma classify_chunk line chunk :
  classify line = Chunk chunk <->
  exists s, line_text line = Some s /\ encode_utf8 s = Some chunk.
Proof.
  unfold classify, line_text.
  destruct line as [|c r].
  - cbn. split; [discriminate|intros (s & H & _); discriminate].
  - cbn [truthy negb].
    destruct (startswith (u "data: ") (c :: r));
      [|split; [discriminate|intros (s & H & _); discriminate]].
    destruct (str_eqb _ (u "[DONE]"));
      [split; [discriminate|intros (s & H & _); discriminate]|].
    rewrite <- try_frame_text.
    destruct (try_frame _) as [[bs|]|]; split; try discriminate;
      intros [= ->]; reflexivity.
Qed.

Lemma line_text_nonempty line s : line_text line = Some s -> s <> [].
Proof.
  unfold line_text, frame_text. destruct (startswith _ line); [|discriminate].
  destruct (str_eqb _ _); [discriminate|].
  destruct (json_loads _); [|discriminate].
  destruct (event_delta _) as [[| | | |[|c r]| |]|]; try discriminate.
  intros [= <-]. discriminate.
Qed.

Lemma generate_app_done l1 d l2 :
  classify d = Done -> generate (l1 ++ d :: l2) = generate l1.
Proof.
  intros Hd. induction l1 as [|l r IH]; cbn [app].
  - now rewrite generate_cons, Hd.
  - rewrite !generate_cons. destruct (classify l); now rewrite ?IH.
Qed.

Lemma generate_app_open l1 l2 :
  forallb (fun l => negb (is_done l)) l1 = true ->
  generate (l1 ++ l2) = generate l1 ++ generate l2.
Proof.
  induction l1 as [|l r IH]; cbn [app forallb]; [reflexivity|].
  intros H. apply andb_true_iff in H as [Hl Hr]. unfold is_done in Hl.
  rewrite !generate_cons. destruct (classify l); try discriminate;
    rewrite (IH Hr); reflexivity.
Qed.

Lemma generate_app_prefix l1 l2 :
  exists rest, generate (l1 ++ l2) = generate l1 ++ rest.
Proof.
  induction l1 as [|l r [rest IH]]; cbn [app].
  - exists (generate l2). reflexivity.
  - rewrite !generate_cons.
    destruct (classify l); try (exists rest; now rewrite IH).
    exists []. reflexivity.
Qed.

End Stream.

Lemma encode_char_scalar c :
  scalar_value c = true <-> exists b, encode_char c = Some b.
Proof.
  unfold scalar_value, encode_char.
  destruct (N.ltb_spec c 128) as [H1|H1];
    destruct (N.ltb_spec c 2048) as [H2|H2];
    destruct (N.leb_spec 55296 c) as [H3|H3];
    destruct (N.leb_spec c 57343) as [H4|H4];
    destruct (N.ltb_spec c 65536) as [H5|H5];
    destruct (N.ltb_spec c 1114112) as [H6|H6];
    destruct (N.ltb_spec c 55296) as [H7|H7];
    destruct (N.ltb_spec 57343 c) as [H8|H8];
    cbn [andb orb]; try lia;
    (split; [eauto; discriminate|]); try reflexivity; intros [b Hb]; discriminate.
Qed.

(** UTF-8 encodes a text exactly when it holds no surrogate. *)
Lemma encode_utf8_scalar s :
  forallb scalar_value s = true <-> exists b, encode_utf8 s = Some b.
Proof.
  induction s as [|c r IH]; cbn [forallb encode_utf8]; [split; eauto|].
  rewrite andb_true_iff, encode_char_scalar, IH. split.
  - intros [[b ->] [bs ->]]. eauto.
  - destruct (encode_char c) as [b|]; [|intros [? ?]; discriminate].
    destruct (encode_utf8 r) as [bs|]; [|intros [? ?]; discriminate]. eauto.
Qed.


Section Skipping.
Context {L : JsonLib}.







(** A "data: " line that is not the sentinel, by what its payload decodes
    to. *)
Lemma generate_prefixed p rest :
  strip p <> u "[DONE]" ->
  generate ((u "data: " ++ p) :: rest) =
  match json_loads (strip p) with
  | None => generate rest
  | Some event =>
      match event_delta event with
      | Some (JStr (c :: r)) =>
          match encode_utf8 (c :: r) with
          | Some chunk => chunk :: generate rest
          | None => generate rest
          end
      | _ => generate rest
      end
  end.
Proof.
  intros Hnd. rewrite generate_cons, classify_prefixed.
  destruct (str_eqb (strip p) (u "[DONE]")) eqn:E;
    [apply str_eqb_eq in E; contradiction|].
  unfold try_frame.
  destruct (json_loads (strip p)) as [event|]; [|reflexivity]. cbn [bind].
  destruct (event_delta event) as [delta|]; [|reflexivity]. cbn [bind].
  destruct delta as [|flag|z|f|s|l|kvs]; cbn [truthy]; try reflexivity.
  - now destruct flag.
  - now destruct (negb (z =? 0)%Z).
  - now destruct f.
  - destruct s as [|a t]; [reflexivity|]. now destruct (encode_utf8 (a :: t)).
  - now destruct l.
  - now destruct kvs.
Qed.

End Skipping.

(** C5, as the code has it: the decoder reads the text lines of a 200
    response in order. A line without the "data: " prefix yields nothing and
    reading goes on; a prefixed line whose stripped payload is [DONE] ends the
    output; a prefixed line whose payload decodes to an event with a non-empty
    text content delta yields the UTF-8 encoding of that delta as the next
    chunk when the delta can be encoded, that is when it holds no surrogate,
    and yields nothing, reading on, when it cannot; a content delta that is not
    a non-empty text yields nothing either. On the frames with deltas "Hi"
    and " there" followed by [DONE] the generator yields "Hi", " there" and
    ends: the bytes "Hi there". *)
Theorem generate_decodes_frames_in_order :
  (forall (L : JsonLib) env messages r lines,
      post env (completion_call env messages) = Replied r ->
      status_code r = 200%Z -> iter_lines r = TextLines lines ->
      outcome_of (stream_completion env messages)
      = Returned (add_cors_headers (stream_response (generate lines))))
  /\ (forall (L : JsonLib) line rest,
         startswith (u "data: ") line = false ->
         generate (line :: rest) = generate rest)
  /\ (forall (L : JsonLib) p rest,
         strip p = u "[DONE]" ->
         generate ((u "data: " ++ p) :: rest) = [])
  /\ (forall (L : JsonLib) p rest event delta,
         strip p <> u "[DONE]" ->
         json_loads (strip p) = Some event ->
         event_delta event = Some delta ->
         generate ((u "data: " ++ p) :: rest) =
         match delta with
         | JStr (c :: r) =>
             match encode_utf8 (c :: r) with
             | Some chunk => chunk :: generate rest
             | None => generate rest
             end
         | _ => generate rest
         end)
  /\ (forall s, (exists chunk, encode_utf8 s = Some chunk)
                <-> forallb scalar_value s = true)
  /\ generate (L := Json.reference) hi_there = [ascii_bytes "Hi"; ascii_bytes " there"]
  /\ concat (generate (L := Json.reference) hi_there) = ascii_bytes "Hi there".
Proof.
  split; [|split; [|split; [|split; [|split; [|split]]]]].
  - intros L env messages r lines Hpost Hst Hl.
    unfold stream_completion. cbn [outcome_of]. rewrite Hpost, Hst, Hl. reflexivity.
  - intros L line rest H. now rewrite generate_cons, classify_unprefixed.
  - intros L p rest H. rewrite generate_cons, classify_prefixed, H.
    now rewrite str_eqb_refl.
  - intros L p rest event delta Hnd Hev Hd.
    rewrite (generate_prefixed p rest Hnd), Hev, Hd. now destruct delta as [| | | |[|c r]| |].
  - intros s. symmetry. apply encode_utf8_scalar.
  - vm_compute. reflexivity.
  - vm_compute. reflexivity.
Qed.


(* ================================================================== *)
(** ** The relay *)

Lemma relayed_error_cases {L : JsonLib} (r : upstream_response) :
  relayed_error r =
  match json_loads (text r) with
  | Some v => match nested_message v with Some m => error_object m | None => v end
  | None =>
      error_object (JStr match text r with
                         | [] => u "Unknown error from Groq"
                         | _ => text r
                         end)
  end.
Proof.
  unfold relayed_error, nested_message.
  destruct (json_loads (text r)) as [v|].
  - destruct v; try reflexivity.
    destruct (lookup (u "error") kvs) as [[]|]; reflexivity.
  - now destruct (text r).
Qed.

(** Over undecoded lines the generator raises as soon as a line is not
    empty. *)
Lemma generate_undecoded_iff (lines : list bytes) :
  generate_undecoded lines = true <-> exists line, In line lines /\ line <> [].
Proof.
  induction lines as [|l r IH]; cbn [generate_undecoded].
  - split; [discriminate|]. now intros (line & [] & _).
  - destruct l as [|b l].
    + rewrite IH. split.
      * intros (line & Hin & Hne). exists line. split; [now right|exact Hne].
      * intros (line & [<-|Hin] & Hne); [contradiction|eauto].
    + split; [intros _|reflexivity]. exists (b :: l). split; [now left|discriminate].
Qed.

(** C1, as the code has it: the relay makes one upstream call. When the
    call raises an exception that is not a [requests.RequestException], the
    relay returns nothing: the exception leaves the handler. When the call
    raises a [requests.RequestException] or returns a response, the relay
    returns a response that is either a JSON error (a [json.dumps] body of type
    application/json, no streamed byte) or a stream (the generator over the
    upstream lines, no JSON body), never both and never neither. Which one is
    the outcome of the upstream status check alone: a stream exactly when
    upstream answered 200, whatever lines the upstream body holds. Over text
    lines the stream is what [generate] yields; over undecoded lines it holds
    no byte, and breaks when a line is not empty. *)
Theorem stream_completion_error_xor_stream
  (L : JsonLib) (env : Env) (messages : json) :
  let c := completion_call env messages in
  calls (stream_completion env messages) = [c]
  /\ (post env c = OtherException <->
      outcome_of (stream_completion env messages) = Raised)
  /\ (post env c <> OtherException ->
      exists resp,
        outcome_of (stream_completion env messages) = Returned resp
        /\ is_stream resp = upstream_ok (post env c)
        /\ is_json_error resp = negb (upstream_ok (post env c))
        /\ (is_json_error resp = true -> streamed_bytes resp = [])
        /\ (is_stream resp = true -> forall v, body resp <> Dumps v)
        /\ (forall r, post env c = Replied r -> status_code r = 200%Z ->
              body resp = generated (iter_lines r))
        /\ (forall r lines, post env c = Replied r -> status_code r = 200%Z ->
              iter_lines r = TextLines lines -> body resp = Stream (generate lines))
        /\ (forall r lines, post env c = Replied r -> status_code r = 200%Z ->
              iter_lines r = ByteLines lines ->
              streamed_bytes resp = []
              /\ (body resp = Broken [] <-> exists line, In line lines /\ line <> [])))
  /\ (forall r lines,
        upstream_ok (Replied r) =
        upstream_ok (Replied {| status_code := status_code r; text := text r;
                                iter_lines := lines |})).
Proof.
  intros c. unfold stream_completion. fold c. cbn [calls outcome_of].
  split; [reflexivity|]. split; [|split; [|reflexivity]].
  - destruct (post env c) as [e| |r]; split; try discriminate; reflexivity.
  - intros Hpost. destruct (post env c) as [e| |r]; cbn [upstream_ok].
    + eexists. split; [reflexivity|]. repeat split; try reflexivity; discriminate.
    + contradiction.
    + destruct (status_code r =? 200)%Z eqn:E; cbn [negb].
      * eexists. split; [reflexivity|].
        assert (Hs : is_stream (add_cors_headers (generator_response (generated (iter_lines r))))
                     = true)
          by (unfold is_stream, generated; cbn [add_cors_headers generator_response body];
              destruct (iter_lines r) as [ls|ls]; [|destruct (generate_undecoded ls)];
              reflexivity).
        assert (Hj : is_json_error
                       (add_cors_headers (generator_response (generated (iter_lines r))))
                     = false)
          by (unfold is_json_error, generated; cbn [add_cors_headers generator_response body];
              destruct (iter_lines r) as [ls|ls]; [|destruct (generate_undecoded ls)];
              reflexivity).
        rewrite Hs, Hj.
        split; [reflexivity|]. split; [reflexivity|]. split; [discriminate|].
        split; [|split; [|split]].
        -- intros _ v. cbn [add_cors_headers generator_response body]. unfold generated.
           destruct (iter_lines r) as [ls|ls]; [|destruct (generate_undecoded ls)];
             discriminate.
        -- now intros r' [= <-] _.
        -- intros r' lines [= <-] _ Hl. cbn [add_cors_headers generator_response body].
           now rewrite Hl.
        -- intros r' lines [= <-] _ Hl. unfold streamed_bytes.
           cbn [add_cors_headers generator_response body]. rewrite Hl. cbn [generated].
           rewrite <- generate_undecoded_iff.
           destruct (generate_undecoded lines); (split; [reflexivity|]);
             split; try reflexivity; discriminate.
      * eexists. split; [reflexivity|].
        split; [reflexivity|]. split; [reflexivity|]. split; [reflexivity|].
        split; [discriminate|]. split; [|split].
        -- intros r' [= <-] H. rewrite H in E. discriminate.
        -- intros r' lines [= <-] H. rewrite H in E. discriminate.
        -- intros r' lines [= <-] H. rewrite H in E. discriminate.
Qed.

(** C4, as the code has it: an upstream answer whose status is not 200 is
    relayed as a JSON error with the upstream status and no streamed byte.
    Its body is [{"error": m}] when the upstream body decodes to the shape
    [{"error": {"message": m}}]; the decoded upstream body itself when it
    decodes to any other JSON value; [{"error": text}] with the raw text when
    it does not decode and is not empty; and
    [{"error": "Unknown error from Groq"}] when it is empty. A 429 with body
    [{"error":{"message":"rate limited"}}] is relayed as status 429 and body
    [{"error": "rate limited"}]. *)
Theorem upstream_error_relayed :
  (forall (L : JsonLib) (env : Env) (messages : json) (r : upstream_response),
      post env (completion_call env messages) = Replied r ->
      status_code r <> 200%Z ->
      exists resp,
        outcome_of (stream_completion env messages) = Returned resp
        /\ status resp = status_code r
        /\ is_json_error resp = true
        /\ streamed_bytes resp = []
        /\ body resp = Dumps (relayed_error r)
        /\ (forall v m, json_loads (text r) = Some v -> nested_message v = Some m ->
                        relayed_error r = JDict [(u "error", m)])
        /\ (forall v, json_loads (text r) = Some v -> nested_message v = None ->
                      relayed_error r = v)
        /\ (json_loads (text r) = None -> text r <> [] ->
            relayed_error r = JDict [(u "error", JStr (text r))])
        /\ (json_loads (text r) = None -> text r = [] ->
            relayed_error r = JDict [(u "error", JStr (u "Unknown error from Groq"))]))
  /\ (forall messages,
         outcome_of
           (stream_completion (L := Json.reference)
              (answering (reply 429 (quoted "{'error':{'message':'rate limited'}}") []))
              messages)
         = Returned (add_cors_headers
                       (json_response (JDict [(u "error", JStr (u "rate limited"))]) 429))).
Proof.
  split.
  - intros L env messages r Hpost Hst.
    unfold stream_completion. cbn [outcome_of]. rewrite Hpost.
    apply Z.eqb_neq in Hst. rewrite Hst. cbn [negb].
    eexists. split; [reflexivity|].
    do 4 (split; [reflexivity|]).
    rewrite relayed_error_cases.
    split; [|split; [|split]].
    + intros v m -> ->. reflexivity.
    + intros v -> ->. reflexivity.
    + intros -> Hne. now destruct (text r).
    + intros -> ->. reflexivity.
  - intros messages. vm_compute. reflexivity.
Qed.

(* ================================================================== *)
(** ** Reading the request body *)

Section Handlers.
Context {L : JsonLib}.
Variable env : Env.

Lemma get_field req kvs k :
  body_fields req = Some kvs ->
  get (por (get_json req) (JDict [])) (u k) = Some (field k kvs).
Proof.
  unfold body_fields. destruct (por (get_json req) (JDict [])); try discriminate.
  intros [= ->]. unfold get, get_default, field, ret.
  now destruct (lookup (u k) kvs).
Qed.

Lemma get_no_fields req k :
  body_fields req = None -> get (por (get_json req) (JDict [])) (u k) = None.
Proof.
  unfold body_fields. now destruct (por (get_json req) (JDict [])).
Qed.

Lemma text_field_por k kvs s :
  text_field k kvs = Some s -> por (field k kvs) (JStr []) = JStr s.
Proof.
  unfold text_field. destruct (por (field k kvs) (JStr [])); try discriminate.
  now intros [= ->].
Qed.

(** The selection passes the slice and the [strip()] only when it reads as
    text. *)
Lemma selection_is_text kvs t :
  bind (slice_to selection_limit (por (field "selection" kvs) (JStr []))) strip_method
  = Some t ->
  exists s, text_field "selection" kvs = Some s /\ t = strip (firstn selection_limit s).
Proof.
  unfold text_field.
  destruct (por (field "selection" kvs) (JStr [])); try discriminate.
  cbn [slice_to strip_method bind ret]. intros [= <-]. eauto.
Qed.

Lemma branch_summary_body_text req kvs s :
  body_fields req = Some kvs ->
  text_field "selection" kvs = Some s ->
  branch_summary_body req =
  if negb (truthy (JStr (strip (firstn selection_limit s)))) then
    ret (inl (bad_request "selection required"))
  else
    hist <- history_messages (por (field "history" kvs) (JList [])) ;;
    transcript <- transcript_messages (por (field "popup_turns" kvs) (JList [])) ;;
    ret (inr ((hist ++ [selected_context (firstn selection_limit s)])
                ++ transcript ++ [user_message summary_instruction])).
Proof.
  intros Hf Hs. unfold branch_summary_body.
  rewrite !(fun k => @get_field req kvs k Hf). cbn [bind].
  rewrite (@text_field_por _ _ _ Hs). reflexivity.
Qed.

Lemma branch_body_text req kvs s qu :
  body_fields req = Some kvs ->
  text_field "selection" kvs = Some s ->
  text_field "question" kvs = Some qu ->
  branch_body req =
  if negb (truthy (JStr (strip (firstn selection_limit s)))) then
    ret (inl (bad_request "selection required"))
  else
    hist <- history_messages (por (field "history" kvs) (JList [])) ;;
    let messages := hist ++ [selected_context (firstn selection_limit s)] in
    if truthy (por (field "popup_turns" kvs) (JList [])) then
      items <- iterate (por (field "popup_turns" kvs) (JList [])) ;;
      turns <- collect popup_turn items ;;
      ret (inr (messages ++ turns))
    else if truthy (JStr (strip qu)) then
      ret (inr (messages ++ [user_message (strip qu)]))
    else ret (inl (bad_request "Provide either popup_turns or question")).
Proof.
  intros Hf Hs Hq. unfold branch_body.
  rewrite !(fun k => @get_field req kvs k Hf). cbn [bind].
  rewrite (@text_field_por _ _ _ Hs), (@text_field_por _ _ _ Hq). reflexivity.
Qed.

Lemma branch_summary_body_inv req r :
  branch_summary_body req = Some r ->
  exists kvs s, body_fields req = Some kvs /\ text_field "selection" kvs = Some s.
Proof.
  unfold branch_summary_body. destruct (body_fields req) as [kvs|] eqn:Hf.
  - rewrite !(fun k => @get_field req kvs k Hf). cbn [bind]. intros H.
    destruct (bind (slice_to selection_limit (por (field "selection" kvs) (JStr [])))
                strip_method) as [t|] eqn:E.
    + apply selection_is_text in E as (s & Hs & _). eauto.
    + unfold bind in E, H.
      destruct (slice_to selection_limit (por (field "selection" kvs) (JStr [])));
        [|discriminate].
      rewrite E in H. discriminate.
  - rewrite !(fun k => @get_no_fields req k Hf). discriminate.
Qed.

Lemma branch_body_inv req r :
  branch_body req = Some r ->
  exists kvs s qu,
    body_fields req = Some kvs /\ text_field "selection" kvs = Some s
    /\ text_field "question" kvs = Some qu.
Proof.
  unfold branch_body. destruct (body_fields req) as [kvs|] eqn:Hf.
  - rewrite !(fun k => @get_field req kvs k Hf). cbn [bind]. intros H.
    destruct (slice_to selection_limit (por (field "selection" kvs) (JStr [])))
      as [sel|] eqn:E1; [|discriminate].
    destruct (por (field "question" kvs) (JStr [])) as [| | | |qu| |] eqn:Eq;
      try discriminate.
    cbn [strip_method ret bind] in H.
    destruct (strip_method sel) as [t|] eqn:E2; [|discriminate].
    destruct (selection_is_text kvs (t := t)) as (s & Hs & _).
    { now rewrite E1. }
    exists kvs, s, qu. unfold text_field at 2. now rewrite Eq.
  - rewrite !(fun k => @get_no_fields req k Hf). discriminate.
Qed.

(** An upstream call of a handler is the relay of the list its body
    assembled. *)
Lemma finish_calls body c :
  In c (calls (finish env body)) ->
  exists messages, body = Some (inr messages) /\ c = completion_call env (JList messages).
Proof.
  destruct body as [[resp|messages]|]; cbn; try tauto.
  intros [<-|[]]. eauto.
Qed.

Lemma branch_calls req c :
  In c (calls (branch env req)) ->
  exists messages,
    branch_body req = Some (inr messages) /\ c = completion_call env (JList messages).
Proof.
  unfold branch. destruct (preamble env req); [intros []|apply finish_calls].
Qed.

Lemma branch_summary_calls req c :
  In c (calls (branch_summary env req)) ->
  exists messages,
    branch_summary_body req = Some (inr messages)
    /\ c = completion_call env (JList messages).
Proof.
  unfold branch_summary. destruct (preamble env req); [intros []|apply finish_calls].
Qed.

Lemma preamble_post req :
  method req = POST -> GROQ_API_KEY env <> [] -> preamble env req = None.
Proof.
  unfold preamble. intros -> Hk. now destruct (GROQ_API_KEY env).
Qed.

End Handlers.

(* ================================================================== *)
(** ** Validation of branch requests *)

Section Validation.
Context {L : JsonLib}.
Variable env : Env.

Lemma branch_summary_blank_prefix req kvs s :
  method req = POST -> GROQ_API_KEY env <> [] ->
  body_fields req = Some kvs ->
  text_field "selection" kvs = Some s ->
  strip (firstn selection_limit s) = [] ->
  branch_summary env req = rejected "selection required".
Proof.
  intros Hm Hk Hf Hs Hb. unfold branch_summary.
  rewrite (preamble_post env req Hm Hk), (branch_summary_body_text req Hf Hs), Hb.
  reflexivity.
Qed.

Lemma branch_blank_prefix req kvs s qu :
  method req = POST -> GROQ_API_KEY env <> [] ->
  body_fields req = Some kvs ->
  text_field "selection" kvs = Some s ->
  text_field "question" kvs = Some qu ->
  strip (firstn selection_limit s) = [] ->
  branch env req = rejected "selection required".
Proof.
  intros Hm Hk Hf Hs Hq Hb. unfold branch.
  rewrite (preamble_post env req Hm Hk), (branch_body_text req Hf Hs Hq), Hb.
  reflexivity.
Qed.

End Validation.

(** X20: a POST to branch-summary whose selection is blank (absent, empty or
    white space only) is answered 400 with the message "selection required"
    and without an upstream call, whatever the other fields hold; a POST to
    branch is answered the same way whatever history and popup_turns hold,
    when the question field is absent, false or text. *)
Theorem blank_selection_rejected
  (L : JsonLib) (env : Env) (req : Request) (kvs : list (str * json)) (s : str) :
  method req = POST -> GROQ_API_KEY env <> [] ->
  body_fields req = Some kvs ->
  text_field "selection" kvs = Some s ->
  strip s = [] ->
  branch_summary env req = rejected "selection required"
  /\ (forall qu, text_field "question" kvs = Some qu ->
                 branch env req = rejected "selection required")
  /\ calls (rejected "selection required") = []
  /\ status (bad_request "selection required") = 400%Z
  /\ body (bad_request "selection required")
     = Dumps (error_object (JStr (u "selection required"))).
Proof.
  intros Hm Hk Hf Hs Hb.
  pose proof (strip_firstn_nil selection_limit s Hb) as Hb'.
  split; [now apply branch_summary_blank_prefix with kvs s|].
  split; [|repeat split].
  intros qu Hq. now apply branch_blank_prefix with kvs s qu.
Qed.

(** X21: the blank check reads the selection after its truncation. A POST to
    branch-summary, or to branch with a question that is absent, false or
    text, whose selection has only white space among its first 3000
    characters is answered 400 "selection required" without an upstream call,
    whatever follows those characters. *)
Theorem truncation_precedes_blank_check
  (L : JsonLib) (env : Env) (req : Request) (kvs : list (str * json)) (s : str) :
  method req = POST -> GROQ_API_KEY env <> [] ->
  body_fields req = Some kvs ->
  text_field "selection" kvs = Some s ->
  forallb isspace (firstn selection_limit s) = true ->
  branch_summary env req = rejected "selection required"
  /\ (forall qu, text_field "question" kvs = Some qu ->
                 branch env req = rejected "selection required").
Proof.
  intros Hm Hk Hf Hs Hpad. apply strip_nil_iff in Hpad.
  split; [now apply branch_summary_blank_prefix with kvs s|].
  intros qu Hq. now apply branch_blank_prefix with kvs s qu.
Qed.

(* ================================================================== *)
(** ** The assembled message lists *)

Lemma has_chat_role_message r c : has_chat_role (message r c) = role_allowed r.
Proof. reflexivity. Qed.

Lemma collect_forallb (f : json -> exc (list json)) (P : json -> bool) items out :
  (forall t o, f t = Some o -> forallb P o = true) ->
  collect f items = Some out -> forallb P out = true.
Proof.
  intros Hf. revert out. induction items as [|x r IH]; cbn [collect]; intros out.
  - now intros [= <-].
  - destruct (f x) as [a|] eqn:Ea; [|discriminate]. cbn [bind].
    destruct (collect f r) as [bs|]; [|discriminate]. cbn [bind].
    intros [= <-]. rewrite forallb_app, (Hf _ _ Ea). now apply IH.
Qed.

Lemma popup_turn_roles t o : popup_turn t = Some o -> forallb has_chat_role o = true.
Proof.
  unfold popup_turn. destruct (get t (u "role")) as [role|]; [|discriminate].
  destruct (get t (u "content")) as [c|]; [|discriminate]. cbn [bind].
  destruct (role_allowed role) eqn:Er; cbn [andb].
  - destruct (is_str _); intros [= <-]; [|reflexivity].
    cbn [forallb]. now rewrite has_chat_role_message, Er.
  - now intros [= <-].
Qed.

Lemma transcript_turn_roles t o :
  transcript_turn t = Some o -> forallb has_chat_role o = true.
Proof.
  unfold transcript_turn. destruct (get t (u "role")) as [role|]; [|discriminate].
  destruct (get t (u "content")) as [c|]; [|discriminate]. cbn [bind].
  destruct (role_allowed role && is_str _); [|now intros [= <-]].
  destruct (format _); [|discriminate]. now intros [= <-].
Qed.

Lemma transcript_messages_roles p o :
  transcript_messages p = Some o -> forallb has_chat_role o = true.
Proof.
  unfold transcript_messages. destruct (truthy p); [|now intros [= <-]].
  destruct (iterate p) as [items|]; [|discriminate]. cbn [bind].
  destruct (collect transcript_turn items) as [turns|] eqn:E; [|discriminate].
  intros [= <-]. cbn [forallb].
  now rewrite (collect_forallb transcript_turn has_chat_role items transcript_turn_roles E).
Qed.

(** What the code forwards from a history list is what the specification
    calls its well-formed entries. *)
Lemma flat_map_filter_map {A B} (p : A -> bool) (k : A -> B) l :
  flat_map (fun x => if p x then [k x] else []) l = map k (filter p l).
Proof.
  induction l as [|x r IH]; [reflexivity|].
  cbn [flat_map filter]. rewrite IH. now destruct (p x).
Qed.

Lemma collect_total (f : json -> exc (list json)) (g : json -> list json) items :
  (forall x, In x items -> f x = Some (g x)) ->
  collect f items = Some (flat_map g items).
Proof.
  induction items as [|x r IH]; intros H; [reflexivity|].
  cbn [collect flat_map]. rewrite (H x (or_introl eq_refl)), IH; [reflexivity|].
  intros y Hy. apply H. now right.
Qed.

Lemma history_entry_forwarded m :
  history_entry m = if well_formed_entry m then [forwarded m] else [].
Proof.
  destruct m; try reflexivity. cbn [history_entry well_formed_entry forwarded].
  unfold has_key, field.
  destruct (lookup (u "role") kvs), (lookup (u "content") kvs); reflexivity.
Qed.

(** What the code forwards from a history list is what the specification
    calls its well-formed entries. *)
Lemma history_entries_forwarded history :
  flat_map history_entry history = map forwarded (filter well_formed_entry history).
Proof.
  rewrite <- flat_map_filter_map. apply flat_map_ext. apply history_entry_forwarded.
Qed.

Lemma popup_turn_object kvs :
  popup_turn (JDict kvs)
  = Some (if well_formed_turn (JDict kvs) then [kept_turn (JDict kvs)] else []).
Proof.
  unfold popup_turn, well_formed_turn, kept_turn.
  cbn [get get_default bind ret turn_role turn_content].
  fold (field "role" kvs). fold (field "content" kvs).
  now destruct (role_allowed _ && is_str _).
Qed.

Lemma transcript_turn_object kvs :
  transcript_turn (JDict kvs)
  = Some (if well_formed_turn (JDict kvs) then [reframed (JDict kvs)] else []).
Proof.
  unfold transcript_turn, well_formed_turn, reframed.
  cbn [get get_default bind ret turn_role turn_content].
  fold (field "role" kvs). fold (field "content" kvs).
  destruct (role_allowed (field "role" kvs)); [|reflexivity]. cbn [andb].
  now destruct (por (field "content" kvs) (JStr [])).
Qed.

Lemma collect_popup_objects turns :
  collect popup_turn (map JDict turns)
  = Some (map kept_turn (filter well_formed_turn (map JDict turns))).
Proof.
  rewrite <- flat_map_filter_map. apply collect_total.
  intros x Hx. apply in_map_iff in Hx as (kvs & <- & _). apply popup_turn_object.
Qed.

Lemma collect_transcript_objects turns :
  collect transcript_turn (map JDict turns)
  = Some (map reframed (filter well_formed_turn (map JDict turns))).
Proof.
  rewrite <- flat_map_filter_map. apply collect_total.
  intros x Hx. apply in_map_iff in Hx as (kvs & <- & _). apply transcript_turn_object.
Qed.

Section Assembly.
Context {L : JsonLib}.
Variable env : Env.

Lemma sent_messages_call messages :
  sent_messages (completion_call env messages) = Some messages.
Proof. reflexivity. Qed.

(** The list a branch or branch-summary request assembles: the forwarded
    history, the context of the truncated selection, and messages of the
    endpoint's own with a chat role. *)
Lemma branch_body_messages req messages :
  branch_body req = Some (inr messages) ->
  exists kvs s hist own,
    body_fields req = Some kvs /\ text_field "selection" kvs = Some s
    /\ history_messages (por (field "history" kvs) (JList [])) = Some hist
    /\ messages = hist ++ selected_context (firstn selection_limit s) :: own
    /\ forallb has_chat_role own = true.
Proof.
  intros H. destruct (branch_body_inv req H) as (kvs & s & qu & Hf & Hs & Hq).
  rewrite (branch_body_text req Hf Hs Hq) in H.
  destruct (negb _); [discriminate|].
  destruct (history_messages _) as [hist|] eqn:Eh; [|discriminate]. cbn [bind] in H.
  exists kvs, s, hist.
  destruct (truthy (por (field "popup_turns" kvs) (JList []))).
  - destruct (iterate _) as [items|]; [|discriminate]. cbn [bind] in H.
    destruct (collect popup_turn items) as [turns|] eqn:E; [|discriminate].
    injection H as <-. exists turns. rewrite <- app_assoc.
    repeat split; try assumption.
    now apply (collect_forallb popup_turn has_chat_role items popup_turn_roles).
  - destruct (truthy (JStr (strip qu))); [|discriminate].
    injection H as <-. exists [user_message (strip qu)].
    rewrite <- app_assoc. repeat split; assumption.
Qed.

Lemma branch_summary_body_messages req messages :
  branch_summary_body req = Some (inr messages) ->
  exists kvs s hist own,
    body_fields req = Some kvs /\ text_field "selection" kvs = Some s
    /\ history_messages (por (field "history" kvs) (JList [])) = Some hist
    /\ messages = hist ++ selected_context (firstn selection_limit s) :: own
    /\ forallb has_chat_role own = true.
Proof.
  intros H. destruct (branch_summary_body_inv req H) as (kvs & s & Hf & Hs).
  rewrite (branch_summary_body_text req Hf Hs) in H.
  destruct (negb _); [discriminate|].
  destruct (history_messages _) as [hist|] eqn:Eh; [|discriminate]. cbn [bind] in H.
  destruct (transcript_messages _) as [tr|] eqn:E; [|discriminate].
  injection H as <-.
  exists kvs, s, hist, (tr ++ [user_message summary_instruction]).
  rewrite <- app_assoc. repeat split; try assumption.
  rewrite forallb_app, (transcript_messages_roles _ E). reflexivity.
Qed.

Lemma handler_call_messages req c :
  In c (calls (branch env req)) \/ In c (calls (branch_summary env req)) ->
  exists kvs s hist own,
    body_fields req = Some kvs /\ text_field "selection" kvs = Some s
    /\ history_messages (por (field "history" kvs) (JList [])) = Some hist
    /\ sent_messages c
       = Some (JList (hist ++ selected_context (firstn selection_limit s) :: own))
    /\ forallb has_chat_role own = true.
Proof.
  intros [H|H].
  - apply branch_calls in H as (messages & Hb & ->).
    destruct (branch_body_messages req Hb) as (kvs & s & hist & own & ? & ? & ? & -> & ?).
    exists kvs, s, hist, own. now rewrite sent_messages_call.
  - apply branch_summary_calls in H as (messages & Hb & ->).
    destruct (branch_summary_body_messages req Hb)
      as (kvs & s & hist & own & ? & ? & ? & -> & ?).
    exists kvs, s, hist, own. now rewrite sent_messages_call.
Qed.

End Assembly.

(** C2, as the code has it: on a POST to branch with a selection whose first
    3000 characters are not blank, a question that is absent, false or text
    and a history list, the request is answered 400 "Provide either popup_turns or question" without
    an upstream call when popup_turns is empty and the question is blank; it
    is relayed with the stripped question as last message when popup_turns is
    empty and the question is not blank; and it is relayed with the
    well-formed popup turns when popup_turns is a non-empty list of objects,
    whatever the question: with both fields the request is processed and the
    question is ignored. *)
Theorem branch_question_or_popup_turns
  (L : JsonLib) (env : Env) (req : Request) (kvs : list (str * json))
  (s qu : str) (history : list json) :
  method req = POST -> GROQ_API_KEY env <> [] ->
  body_fields req = Some kvs ->
  text_field "selection" kvs = Some s -> strip (firstn selection_limit s) <> [] ->
  text_field "question" kvs = Some qu ->
  por (field "history" kvs) (JList []) = JList history ->
  (truthy (por (field "popup_turns" kvs) (JList [])) = false -> strip qu = [] ->
   branch env req = rejected "Provide either popup_turns or question")
  /\ (truthy (por (field "popup_turns" kvs) (JList [])) = false -> strip qu <> [] ->
      branch env req =
      stream_completion env
        (JList (map forwarded (filter well_formed_entry history)
                  ++ [selected_context (firstn selection_limit s);
                      JDict [(u "role", JStr (u "user")); (u "content", JStr (strip qu))]])))
  /\ (forall turns,
         por (field "popup_turns" kvs) (JList []) = JList (map JDict turns) ->
         turns <> [] ->
         branch env req =
         stream_completion env
           (JList (map forwarded (filter well_formed_entry history)
                     ++ selected_context (firstn selection_limit s)
                     :: map kept_turn (filter well_formed_turn (map JDict turns))))).
Proof.
  intros Hm Hk Hf Hs Hnb Hq Hh.
  assert (Hb : branch env req =
               finish env
                 (let messages := map forwarded (filter well_formed_entry history)
                                    ++ [selected_context (firstn selection_limit s)] in
                  if truthy (por (field "popup_turns" kvs) (JList [])) then
                    items <- iterate (por (field "popup_turns" kvs) (JList [])) ;;
                    turns <- collect popup_turn items ;;
                    ret (inr (messages ++ turns))
                  else if truthy (JStr (strip qu)) then
                    ret (inr (messages ++ [user_message (strip qu)]))
                  else ret (inl (bad_request "Provide either popup_turns or question")))).
  { unfold branch.
    rewrite (preamble_post env req Hm Hk), (branch_body_text req Hf Hs Hq), Hh.
    destruct (strip (firstn selection_limit s)); [contradiction|].
    cbn [truthy negb history_messages iterate bind ret].
    now rewrite history_entries_forwarded. }
  rewrite Hb. cbv zeta. split; [|split].
  - intros -> ->. reflexivity.
  - intros -> Hne. destruct (strip qu); [contradiction|].
    cbn [truthy finish ret]. now rewrite <- app_assoc.
  - intros turns -> Hne. destruct turns as [|t r]; [contradiction|].
    cbn [map truthy iterate bind ret].
    change (JDict t :: map JDict r) with (map JDict (t :: r)).
    rewrite collect_popup_objects. cbn [bind ret finish]. now rewrite <- app_assoc.
Qed.

Lemma forwarded_keeps e :
  well_formed_entry e = true ->
  role_of (forwarded e) = role_of e /\ content_of (forwarded e) = content_of e.
Proof. destruct e; try discriminate. intros _. split; reflexivity. Qed.

(** C3, as the code has it: every message list that branch or branch-summary
    sends upstream is the caller's well-formed history entries, each forwarded
    with the role and the content the caller gave it, followed by messages of
    the endpoint's own, and each of those has role "user" or "assistant": the
    endpoints add no message with another role, so a message of the list
    without a chat role is a forwarded history entry. The chat endpoint
    sends the caller's [messages] value as it is. *)
Theorem own_messages_have_chat_roles
  (L : JsonLib) (env : Env) (req : Request) (c : upstream_call) :
  (In c (calls (branch env req)) \/ In c (calls (branch_summary env req)) ->
   exists kvs entries own,
     body_fields req = Some kvs
     /\ iterate (por (field "history" kvs) (JList [])) = Some entries
     /\ sent_messages c
        = Some (JList (map forwarded (filter well_formed_entry entries) ++ own))
     /\ forallb has_chat_role own = true
     /\ (forall e, In e entries -> well_formed_entry e = true ->
           role_of (forwarded e) = role_of e
           /\ content_of (forwarded e) = content_of e)
     /\ (forall m,
           In m (map forwarded (filter well_formed_entry entries) ++ own) ->
           has_chat_role m = false ->
           exists e, In e entries /\ well_formed_entry e = true /\ m = forwarded e))
  /\ (In c (calls (chat env req)) ->
      exists kvs,
        body_fields req = Some kvs
        /\ sent_messages c
           = Some match lookup (u "messages") kvs with Some v => v | None => JList [] end).
Proof.
  split.
  - intros H.
    destruct (handler_call_messages env req c H)
      as (kvs & s & hist & own & Hf & _ & Hh & Hsent & Hown).
    unfold history_messages in Hh.
    destruct (iterate (por (field "history" kvs) (JList []))) as [entries|] eqn:Ei;
      [|discriminate].
    cbn [bind ret] in Hh. injection Hh as <-.
    rewrite history_entries_forwarded in Hsent.
    exists kvs, entries, (selected_context (firstn selection_limit s) :: own).
    split; [exact Hf|]. split; [exact Ei|]. split; [exact Hsent|].
    split; [exact Hown|]. split.
    + intros e _. apply forwarded_keeps.
    + intros m Hin Hm. apply in_app_or in Hin as [Hin|Hin].
      * apply in_map_iff in Hin as (e & <- & He). apply filter_In in He as [He1 He2].
        eauto.
      * assert (Hall : forallb has_chat_role
                         (selected_context (firstn selection_limit s) :: own) = true)
          by exact Hown.
        rewrite forallb_forall in Hall. rewrite (Hall m Hin) in Hm. discriminate.
  - unfold chat. destruct (preamble env req); [intros []|].
    unfold body_fields.
    destruct (por (get_json req) (JDict [])) as [| | | | | |kvs];
      try (intros H; now destruct H).
    intros H.
    assert (Hc : c = completion_call env
                       match lookup (u "messages") kvs with
                       | Some v => v
                       | None => JList []
                       end)
      by (cbn [get_default ret calls stream_completion In] in H; now destruct H as [<-|[]]).
    exists kvs. split; [reflexivity|]. now rewrite Hc.
Qed.


(** C9, as the code has it: on a POST to branch-summary with a selection
    whose first 3000 characters are not blank, a history list and a
    popup_turns list of objects, the list relayed upstream
    is the one the specification words: the well-formed history entries in
    order, the selection context, then, only when popup_turns is not empty,
    the transcript header and each well-formed turn re-framed as a "user"
    message with a "User:" or "Assistant:" prefix, then the fixed instruction.
    With no popup turn the request is relayed all the same, with the history,
    the selection context and the instruction. *)
Theorem branch_summary_messages
  (L : JsonLib) (env : Env) (req : Request) (kvs : list (str * json))
  (s : str) (history : list json) (turns : list (list (str * json))) :
  method req = POST -> GROQ_API_KEY env <> [] ->
  body_fields req = Some kvs ->
  text_field "selection" kvs = Some s -> strip (firstn selection_limit s) <> [] ->
  por (field "history" kvs) (JList []) = JList history ->
  por (field "popup_turns" kvs) (JList []) = JList (map JDict turns) ->
  branch_summary env req
  = stream_completion env
      (JList (summary_messages_spec history (map JDict turns) (firstn selection_limit s)))
  /\ (turns = [] ->
      branch_summary env req
      = stream_completion env
          (JList (map forwarded (filter well_formed_entry history)
                    ++ [selected_context (firstn selection_limit s);
                        user_message summary_instruction])))
  /\ calls (branch_summary env req)
     = [completion_call env
          (JList (summary_messages_spec history (map JDict turns) (firstn selection_limit s)))].
Proof.
  intros Hm Hk Hf Hs Hnb Hh Hp.
  assert (Hb : branch_summary env req
               = stream_completion env
                   (JList (summary_messages_spec history (map JDict turns)
                             (firstn selection_limit s)))).
  { unfold branch_summary.
    rewrite (preamble_post env req Hm Hk), (branch_summary_body_text req Hf Hs), Hh, Hp.
    destruct (strip (firstn selection_limit s)); [contradiction|].
    cbn [truthy negb history_messages iterate bind ret].
    rewrite history_entries_forwarded. unfold transcript_messages, summary_messages_spec.
    destruct turns as [|t r].
    - cbn [map truthy bind ret finish]. now rewrite <- app_assoc.
    - cbn [map truthy iterate bind ret].
      change (JDict t :: map JDict r) with (map JDict (t :: r)).
      rewrite collect_transcript_objects. cbn [bind ret finish].
      now rewrite <- app_assoc. }
  split; [exact Hb|]. split.
  - intros ->. exact Hb.
  - rewrite Hb. reflexivity.
Qed.

(* ================================================================== *)
(** ** Runs of the handlers on concrete requests *)

Example generate_noisy_stream :
  generate (L := Json.reference) noisy_stream = [ascii_bytes "Hi"; ascii_bytes " there"]
  /\ map (classify (L := Json.reference)) noisy_stream
     = [Chunk (ascii_bytes "Hi"); Malformed; Ignored; Silent; Malformed;
        Chunk (ascii_bytes " there"); Done; Chunk (ascii_bytes "late")].
Proof. split; vm_compute; reflexivity. Qed.

(** C1 fails as stated: with a credential that is not Latin-1 the upstream
    call raises outside [requests.RequestException]; the relay made its call
    and returns neither a JSON error nor a stream, the request ends in an
    unhandled exception. *)
Lemma relay_raises_outside_request_exception :
  post unencodable_credential (completion_call unencodable_credential (JList []))
  = OtherException
  /\ stream_completion (L := Json.reference) unencodable_credential (JList [])
     = {| calls := [completion_call unencodable_credential (JList [])];
          outcome_of := Raised |}
  /\ (forall resp,
        outcome_of (stream_completion (L := Json.reference) unencodable_credential
                      (JList []))
        <> Returned resp).
Proof.
  split; [vm_compute; reflexivity|]. split; [vm_compute; reflexivity|].
  intros resp. vm_compute. discriminate.
Qed.

(** C5 fails as stated: a frame that parses to an event whose content delta
    is the non-empty text of one lone surrogate yields no chunk, since the
    delta cannot be encoded; the frames around it are decoded as usual. *)
Lemma lone_surrogate_delta_not_emitted :
  line_text (L := Json.reference) surrogate_frame = Some [55357%N]
  /\ (exists event,
        @json_loads Json.reference (data_of surrogate_frame) = Some event
        /\ event_delta event = Some (JStr [55357%N]))
  /\ encode_utf8 [55357%N] = None
  /\ generate (L := Json.reference) [surrogate_frame] = []
  /\ generate (L := Json.reference) (hi_frame :: surrogate_frame :: there_done)
     = [ascii_bytes "Hi"; ascii_bytes " there"].
Proof.
  split; [vm_compute; reflexivity|]. split.
  - eexists. split; vm_compute; reflexivity.
  - repeat split; vm_compute; reflexivity.
Qed.


(** C2 fails as stated: a branch request with a selection, a question and a
    popup turn is not rejected; it is relayed upstream with the selection
    context and the popup turn, without the question, and answered with the
    stream. *)
Lemma branch_both_fields_processed :
  text_field "question" both_fields = Some (u "why?")
  /\ field "popup_turns" both_fields = JList [turn "user" "hi"]
  /\ branch (L := Json.reference) streaming (post_json (JDict both_fields))
     = {| calls :=
            [completion_call streaming
               (JList [selected_context (u "photosynthesis"); turn "user" "hi"])];
          outcome_of :=
            Returned (add_cors_headers
                        (stream_response [ascii_bytes "Hi"; ascii_bytes " there"])) |}.
Proof. repeat split; vm_compute; reflexivity. Qed.

Lemma branch_question_or_popup_turns_witness :
  branch (L := Json.reference) streaming (post_json (JDict both_fields))
  = stream_completion (L := Json.reference) streaming
      (JList [JDict [kv "role" (JStr (u "user"));
                     kv "content" (JStr (u "Selected Context:" ++ nl ++ u "photosynthesis"))];
              JDict [kv "role" (JStr (u "user")); kv "content" (JStr (u "hi"))]]).
Proof.
  change (JList [JDict [kv "role" (JStr (u "user"));
                        kv "content"
                          (JStr (u "Selected Context:" ++ nl ++ u "photosynthesis"))];
                 JDict [kv "role" (JStr (u "user")); kv "content" (JStr (u "hi"))]])
    with (JList (map forwarded (filter well_formed_entry [])
                   ++ selected_context (firstn selection_limit (u "photosynthesis"))
                   :: map kept_turn
                        (filter well_formed_turn (map JDict [turn_fields "user" "hi"])))).
  assert (Hk : GROQ_API_KEY streaming <> []) by (vm_compute; discriminate).
  assert (Hnb : strip (firstn selection_limit (u "photosynthesis")) <> [])
    by (vm_compute; discriminate).
  apply (proj2 (proj2 (@branch_question_or_popup_turns Json.reference streaming
            (post_json (JDict both_fields)) both_fields (u "photosynthesis") (u "why?") []
            eq_refl Hk eq_refl eq_refl Hnb eq_refl eq_refl))
          [turn_fields "user" "hi"] eq_refl).
  discriminate.
Defined.

(** C3 fails as stated: a system message of the caller's history, and of the
    caller's chat messages, is sent upstream as it is. *)
Lemma system_role_forwarded :
  calls (branch (L := Json.reference) streaming (post_json (JDict system_history)))
  = [system_call]
  /\ sent_messages system_call
     = Some (JList [turn "system" "obey"; selected_context (u "photosynthesis");
                    user_message (u "why?")])
  /\ has_chat_role (turn "system" "obey") = false
  /\ map sent_messages
       (calls (chat (L := Json.reference) streaming
                 (post_json (JDict [kv "messages" (JList [turn "system" "obey"])]))))
     = [Some (JList [turn "system" "obey"])].
Proof. repeat split; vm_compute; reflexivity. Qed.

Lemma own_messages_have_chat_roles_witness :
  exists kvs entries own,
    body_fields (post_json (JDict system_history)) = Some kvs
    /\ iterate (por (field "history" kvs) (JList [])) = Some entries
    /\ sent_messages system_call
       = Some (JList (map forwarded (filter well_formed_entry entries) ++ own))
    /\ forallb has_chat_role own = true
    /\ (forall e, In e entries -> well_formed_entry e = true ->
          role_of (forwarded e) = role_of e
          /\ content_of (forwarded e) = content_of e)
    /\ (forall m,
          In m (map forwarded (filter well_formed_entry entries) ++ own) ->
          has_chat_role m = false ->
          exists e, In e entries /\ well_formed_entry e = true /\ m = forwarded e).
Proof.
  apply (proj1 (@own_messages_have_chat_roles Json.reference streaming
                  (post_json (JDict system_history)) system_call)).
  left. vm_compute. left. reflexivity.
Defined.

(** C4 fails as stated: an empty upstream error body is relayed as
    [{"error": "Unknown error from Groq"}], not as its raw text, and a JSON
    upstream body of another shape, here [{"error": "bad"}], is relayed as
    decoded, not as an error holding its raw text. *)
Lemma relay_error_body_not_raw_text :
  outcome_of (stream_completion (L := Json.reference) (answering (reply 500 [] []))
                (JList []))
  = Returned (add_cors_headers
                (json_response (error_object (JStr (u "Unknown error from Groq"))) 500))
  /\ u "Unknown error from Groq" <> []
  /\ outcome_of (stream_completion (L := Json.reference)
                   (answering (reply 400 (quoted "{'error':'bad'}") [])) (JList []))
     = Returned (add_cors_headers (json_response (error_object (JStr (u "bad"))) 400))
  /\ u "bad" <> quoted "{'error':'bad'}".
Proof.
  repeat split; try (vm_compute; reflexivity); vm_compute; intros H; discriminate H.
Qed.

Lemma upstream_error_relayed_witness :
  exists resp,
    outcome_of
      (stream_completion (L := Json.reference)
         (answering (reply 429 (quoted "{'error':{'message':'rate limited'}}") []))
         (JList []))
    = Returned resp
    /\ status resp = 429%Z
    /\ streamed_bytes resp = []
    /\ body resp = Dumps (JDict [(u "error", JStr (u "rate limited"))]).
Proof.
  destruct (proj1 upstream_error_relayed Json.reference
              (answering (reply 429 (quoted "{'error':{'message':'rate limited'}}") []))
              (JList [])
              {| status_code := 429;
                 text := quoted "{'error':{'message':'rate limited'}}";
                 iter_lines := TextLines [] |}
              eq_refl ltac:(discriminate))
    as (resp & Ho & Hst & _ & Hb & Hbody & _).
  exists resp. repeat split; assumption.
Defined.

(** C7: the code misses what the claim says. A branch request with a blank
    selection and a number as question is not answered 400: the handler raises
    on the question, which it strips one line before it checks the selection,
    and the request ends in an unhandled exception. Branch-summary answers the
    same body with the 400 "selection required", and branch does too once the
    question is text. *)
Lemma branch_blank_selection_numeric_question :
  text_field "selection" numeric_question = Some (u "   ")
  /\ strip (u "   ") = []
  /\ branch (L := Json.reference) streaming (post_json (JDict numeric_question))
     = crashed
  /\ branch_summary (L := Json.reference) streaming (post_json (JDict numeric_question))
     = rejected "selection required"
  /\ branch (L := Json.reference) streaming
       (post_json (JDict [kv "selection" (JStr (u "   ")); kv "question" (JStr (u "5"))]))
     = rejected "selection required".
Proof. repeat split; vm_compute; reflexivity. Qed.

(** C10: the code misses what the claim says, by the defect of C7. A branch
    request whose selection has only white space among its first 3000
    characters and whose question is a number is not answered 400: the handler
    raises on the question before it checks the truncated selection.
    Branch-summary answers the same body with the 400 "selection required". *)
Lemma branch_padded_selection_numeric_question :
  text_field "selection" padded_numeric = Some padded_selection
  /\ forallb isspace (firstn selection_limit padded_selection) = true
  /\ strip padded_selection = u "x"
  /\ branch (L := Json.reference) streaming (post_json (JDict padded_numeric))
     = crashed
  /\ branch_summary (L := Json.reference) streaming (post_json (JDict padded_numeric))
     = rejected "selection required".
Proof. repeat split; vm_compute; reflexivity. Qed.

(** C9 fails as stated: a branch-summary request whose selection is not blank
    but has only white space among its first 3000 characters assembles no
    list; it is answered 400 "selection required" without an upstream call. *)
Lemma summary_padded_selection_rejected :
  text_field "selection" padded_summary = Some padded_selection
  /\ strip padded_selection = u "x"
  /\ branch_summary (L := Json.reference) streaming (post_json (JDict padded_summary))
     = rejected "selection required"
  /\ calls (branch_summary (L := Json.reference) streaming
              (post_json (JDict padded_summary)))
     = [].
Proof. repeat split; vm_compute; reflexivity. Qed.

Lemma blank_selection_rejected_witness :
  branch_summary (L := Json.reference) streaming (post_json (JDict blank_fields))
  = rejected "selection required"
  /\ branch (L := Json.reference) streaming (post_json (JDict blank_fields))
     = rejected "selection required".
Proof.
  assert (Hk : GROQ_API_KEY streaming <> []) by (vm_compute; discriminate).
  destruct (@blank_selection_rejected Json.reference streaming
              (post_json (JDict blank_fields)) blank_fields (u "   ")
              eq_refl Hk eq_refl eq_refl eq_refl)
    as (H1 & H2 & _).
  split; [exact H1|]. apply (H2 (u "why?")). reflexivity.
Defined.


Lemma branch_summary_messages_witness :
  map sent_messages
    (calls (branch_summary (L := Json.reference) streaming
              (post_json (JDict summary_fields))))
  = [Some (JList [JDict [kv "role" (JStr (u "user"));
                         kv "content" (JStr (u "explain plants"))];
                  JDict [kv "role" (JStr (u "user"));
                         kv "content"
                           (JStr (u "Selected Context:" ++ nl ++ u "photosynthesis"))];
                  JDict [kv "role" (JStr (u "user"));
                         kv "content"
                           (JStr (u "Below is the branch conversation transcript:"))];
                  JDict [kv "role" (JStr (u "user"));
                         kv "content" (JStr (u "User: what is it?"))];
                  JDict [kv "role" (JStr (u "user"));
                         kv "content" (JStr (u "Assistant: a process"))];
                  JDict [kv "role" (JStr (u "user"));
                         kv "content" (JStr summary_instruction)]])].
Proof.
  assert (Hk : GROQ_API_KEY streaming <> []) by (vm_compute; discriminate).
  assert (Hnb : strip (firstn selection_limit (u "photosynthesis")) <> [])
    by (vm_compute; discriminate).
  destruct (@branch_summary_messages Json.reference streaming
              (post_json (JDict summary_fields)) summary_fields (u "photosynthesis")
              [turn "user" "explain plants"; JStr (u "junk")] summary_turns
              eq_refl Hk eq_refl eq_refl Hnb eq_refl eq_refl)
    as (_ & _ & ->).
  vm_compute. reflexivity.
Defined.

Lemma truncation_precedes_blank_check_witness :
  strip padded_selection = u "x"
  /\ branch_summary (L := Json.reference) streaming (post_json (JDict padded_fields))
     = rejected "selection required"
  /\ branch (L := Json.reference) streaming (post_json (JDict padded_fields))
     = rejected "selection required".
Proof.
  split; [vm_compute; reflexivity|].
  assert (Hk : GROQ_API_KEY streaming <> []) by (vm_compute; discriminate).
  assert (Hpad : forallb isspace (firstn selection_limit padded_selection) = true)
    by (vm_compute; reflexivity).
  destruct (@truncation_precedes_blank_check Json.reference streaming
              (post_json (JDict padded_fields)) padded_fields padded_selection
              eq_refl Hk eq_refl eq_refl Hpad)
    as (H1 & H2).
  split; [exact H1|]. apply (H2 (u "why?")). reflexivity.
Defined.

(* ================================================================== *)
(** ** The routes before the relay, and the upstream request *)

(** X1: when the upstream call raises a network exception, the relay answers
    502 with the JSON error "Network error contacting Groq: " followed by the
    text of the exception; the one call was made and nothing is streamed. *)
Theorem network_failure_is_gateway_error
  (L : JsonLib) (env : Env) (messages : json) (e : str) :
  post env (completion_call env messages) = RequestException e ->
  stream_completion env messages
  = {| calls := [completion_call env messages];
       outcome_of :=
         Returned (add_cors_headers
                     (json_response
                        (error_object (JStr (u "Network error contacting Groq: " ++ e)))
                        502)) |}.
Proof. intros H. unfold stream_completion. now rewrite H. Qed.

Lemma network_failure_is_gateway_error_witness :
  stream_completion (L := Json.reference) unreachable (JList [])
  = {| calls := [completion_call unreachable (JList [])];
       outcome_of :=
         Returned (add_cors_headers
                     (json_response
                        (error_object
                           (JStr (u "Network error contacting Groq: " ++ u "timed out")))
                        502)) |}.
Proof.
  apply (@network_failure_is_gateway_error Json.reference unreachable (JList [])
           (u "timed out")).
  reflexivity.
Defined.

(** X2: without a credential every route answers a POST with status 500 and
    the JSON error "GROQ_API_KEY missing", and makes no upstream call. *)
Theorem missing_credential_short_circuits
  (L : JsonLib) (env : Env) (req : Request) :
  method req = POST -> GROQ_API_KEY env = [] ->
  chat env req = respond (error_response "GROQ_API_KEY missing" 500)
  /\ branch env req = respond (error_response "GROQ_API_KEY missing" 500)
  /\ branch_summary env req = respond (error_response "GROQ_API_KEY missing" 500)
  /\ calls (respond (error_response "GROQ_API_KEY missing" 500)) = [].
Proof.
  intros Hm Hk. unfold chat, branch, branch_summary, preamble.
  rewrite Hm, Hk. repeat split.
Qed.

Lemma missing_credential_short_circuits_witness :
  branch (L := Json.reference) no_credential (post_json (JDict both_fields))
  = respond (error_response "GROQ_API_KEY missing" 500).
Proof.
  apply (@missing_credential_short_circuits Json.reference no_credential
           (post_json (JDict both_fields)) eq_refl eq_refl).
Defined.

(** X3: every route answers the pre-flight method with an empty response of
    status 204 carrying the cross-origin headers, whatever the credential and
    the body, and makes no upstream call. *)
Theorem preflight_answered_empty (L : JsonLib) (env : Env) (req : Request) :
  method req = OPTIONS ->
  chat env req = respond (add_cors_headers (empty_response 204))
  /\ branch env req = respond (add_cors_headers (empty_response 204))
  /\ branch_summary env req = respond (add_cors_headers (empty_response 204))
  /\ headers (add_cors_headers (empty_response 204))
     = [(u "Access-Control-Allow-Origin", u "*");
        (u "Access-Control-Allow-Headers", u "Content-Type, Authorization");
        (u "Access-Control-Allow-Methods", u "POST, OPTIONS")].
Proof.
  intros Hm. unfold chat, branch, branch_summary, preamble.
  rewrite Hm. repeat split.
Qed.

Lemma preflight_answered_empty_witness :
  chat (L := Json.reference) no_credential {| method := OPTIONS; get_json := JNull |}
  = respond (add_cors_headers (empty_response 204)).
Proof.
  apply (@preflight_answered_empty Json.reference no_credential
           {| method := OPTIONS; get_json := JNull |} eq_refl).
Defined.

(** The upstream request carries the configured model, the message list as
    it was assembled, temperature 0.2, max_tokens 800 and stream true, with
    the credential as bearer token. *)
Lemma completion_call_parameters (env : Env) (messages : json) :
  payload (completion_call env messages)
  = JDict [(u "model", JStr (MODEL env));
           (u "messages", messages);
           (u "temperature", JFloat (Json.float_of_decimal false 2 (-1)));
           (u "max_tokens", JInt 800);
           (u "stream", JBool true)]
  /\ sent_messages (completion_call env messages) = Some messages
  /\ url (completion_call env messages)
     = u "https://api.groq.com/openai/v1/chat/completions"
  /\ req_headers (completion_call env messages)
     = [(u "Authorization", u "Bearer " ++ GROQ_API_KEY env);
        (u "Content-Type", u "application/json")].
Proof. repeat split. Qed.

(* ================================================================== *)
(** ** The .env loader *)

Lemma existsb_rev {A} (f : A -> bool) l : existsb f (rev l) = existsb f l.
Proof.
  induction l as [|a l IH]; simpl; [reflexivity|].
  rewrite existsb_app, IH. simpl. rewrite orb_false_r. apply orb_comm.
Qed.

Lemma lstrip_keeps f s : existsb f (lstrip s) = true -> existsb f s = true.
Proof.
  induction s as [|c r IH]; simpl; [trivial|].
  destruct (isspace c); [|trivial].
  intros H. rewrite (IH H). apply orb_true_r.
Qed.

(** [strip] invents no character. *)
Lemma strip_keeps f s : existsb f (strip s) = true -> existsb f s = true.
Proof.
  unfold strip, rstrip. rewrite existsb_rev. intros H.
  apply lstrip_keeps in H. rewrite existsb_rev in H. now apply lstrip_keeps.
Qed.

Lemma lstrip_chars_keeps f chars s :
  existsb f (lstrip_chars chars s) = true -> existsb f s = true.
Proof.
  induction s as [|c r IH]; simpl; [trivial|].
  destruct (contains c chars); [|trivial].
  intros H. rewrite (IH H). apply orb_true_r.
Qed.

Lemma strip_chars_keeps f chars s :
  existsb f (strip_chars chars s) = true -> existsb f s = true.
Proof.
  unfold strip_chars. rewrite existsb_rev. intros H.
  apply (@lstrip_chars_keeps f chars) in H. rewrite existsb_rev in H.
  now apply (@lstrip_chars_keeps f chars).
Qed.

Lemma split_once_fst (sep : char) (s : str) : contains sep (fst (split_once sep s)) = false.
Proof.
  induction s as [|c r IH]; [reflexivity|]. cbn [split_once].
  destruct (c =? sep)%N eqn:E; [reflexivity|].
  destruct (split_once sep r) as [a b]. cbn [fst contains existsb] in *.
  rewrite N.eqb_sym, E. exact IH.
Qed.

Lemma split_once_snd_keeps f (sep : char) (s : str) :
  existsb f (snd (split_once sep s)) = true -> existsb f s = true.
Proof.
  induction s as [|c r IH]; [trivial|]. cbn [split_once].
  destruct (c =? sep)%N.
  - cbn [snd existsb]. intros ->. apply orb_true_r.
  - destruct (split_once sep r) as [a b]. cbn [snd existsb] in *.
    intros H. rewrite (IH H). apply orb_true_r.
Qed.

Lemma split_once_app (sep : char) (k v : str) :
  contains sep k = false -> split_once sep (k ++ sep :: v) = (k, v).
Proof.
  induction k as [|c r IH]; cbn [app split_once contains existsb].
  - now rewrite N.eqb_refl.
  - intros H. apply orb_false_iff in H as [Hc Hr]. rewrite N.eqb_sym, Hc.
    now rewrite (IH Hr).
Qed.

Lemma environ_lookup_store k v environ :
  environ_lookup k (environ_store k v environ) = Some v.
Proof.
  induction environ as [|[k' v'] r IH]; cbn [environ_store environ_lookup].
  - now rewrite str_eqb_refl.
  - destruct (str_eqb k k') eqn:E; cbn [environ_lookup]; rewrite ?str_eqb_refl, ?E;
      [reflexivity|exact IH].
Qed.

Lemma environ_lookup_store_other k v k0 environ :
  k0 <> k ->
  environ_lookup k0 (environ_store k v environ) = environ_lookup k0 environ.
Proof.
  intros Hne. induction environ as [|[k' v'] r IH]; cbn [environ_store environ_lookup].
  - destruct (str_eqb k0 k) eqn:E; [apply str_eqb_eq in E; contradiction|reflexivity].
  - destruct (str_eqb k k') eqn:E; cbn [environ_lookup].
    + apply str_eqb_eq in E. subst k'.
      destruct (str_eqb k0 k) eqn:E0; [apply str_eqb_eq in E0; contradiction|].
      reflexivity.
    + now rewrite IH.
Qed.

(** The loop in terms of the entry each line asks for. *)
Lemma read_lines_cons line rest environ :
  read_lines (line :: rest) environ =
  match dotenv_entry line with
  | None => read_lines rest environ
  | Some (k, v) =>
      if in_environ k environ then read_lines rest environ
      else
        match environ_set k v environ with
        | Some environ' => read_lines rest environ'
        | None => environ
        end
  end.
Proof.
  cbn [read_lines]. unfold dotenv_entry.
  destruct (negb (truthy (JStr (strip line))) || startswith (u "#") (strip line)
            || negb (contains 61%N (strip line))); [reflexivity|].
  destruct (split_once 61%N (strip line)) as [k v].
  destruct (truthy (JStr (strip k))); cbn [andb]; [|reflexivity].
  now destruct (in_environ (strip k) environ).
Qed.

Lemma dotenv_entry_name line k v :
  dotenv_entry line = Some (k, v) -> k <> [] /\ contains 61%N k = false.
Proof.
  unfold dotenv_entry.
  destruct (negb (truthy (JStr (strip line))) || startswith (u "#") (strip line)
            || negb (contains 61%N (strip line))); [discriminate|].
  pose proof (split_once_fst 61%N (strip line)) as Hk.
  destruct (split_once 61%N (strip line)) as [k0 v0]. cbn [fst] in Hk.
  destruct (truthy (JStr (strip k0))) eqn:Et; [|discriminate].
  intros [= <- _]. split.
  - intros E. rewrite E in Et. discriminate.
  - destruct (contains 61%N (strip k0)) eqn:E; [|reflexivity].
    apply strip_keeps in E. exact (eq_trans (eq_sym E) Hk).
Qed.

Lemma read_lines_keeps lines environ k v :
  environ_lookup k environ = Some v ->
  environ_lookup k (read_lines lines environ) = Some v.
Proof.
  revert environ. induction lines as [|line rest IH]; intros environ H; [exact H|].
  rewrite read_lines_cons.
  destruct (dotenv_entry line) as [[k' v']|]; [|now apply IH].
  unfold in_environ. destruct (environ_lookup k' environ) eqn:E'; [now apply IH|].
  unfold environ_set. destruct (contains 0%N k' || contains 0%N v'); [exact H|].
  apply IH. rewrite environ_lookup_store_other; [exact H|].
  intros ->. congruence.
Qed.

(** Where a variable of the loaded environment comes from. *)
Lemma read_lines_origin lines environ k v :
  environ_lookup k (read_lines lines environ) = Some v ->
  environ_lookup k environ = Some v
  \/ (environ_lookup k environ = None
      /\ storable k = true /\ storable v = true
      /\ exists line, In line lines /\ dotenv_entry line = Some (k, v)).
Proof.
  revert environ. induction lines as [|line rest IH]; intros environ H; [now left|].
  rewrite read_lines_cons in H.
  assert (Hrest : forall environ',
             environ' = environ ->
             environ_lookup k (read_lines rest environ') = Some v ->
             environ_lookup k environ = Some v
             \/ (environ_lookup k environ = None
                 /\ storable k = true /\ storable v = true
                 /\ exists l, In l (line :: rest) /\ dotenv_entry l = Some (k, v))).
  { intros ? -> H'. destruct (IH _ H') as [?|(? & ? & ? & l & ? & ?)]; [now left|].
    right. repeat split; try assumption. exists l. split; [now right|assumption]. }
  destruct (dotenv_entry line) as [[k' v']|] eqn:El; [|now apply Hrest with environ].
  unfold in_environ in H.
  destruct (environ_lookup k' environ) eqn:E'; [now apply Hrest with environ|].
  unfold environ_set in H.
  destruct (contains 0%N k' || contains 0%N v') eqn:En; [now left|].
  apply orb_false_iff in En as [Hn1 Hn2]. cbn [ret] in H.
  destruct (IH _ H) as [H1|(H1 & ? & ? & l & ? & ?)].
  - destruct (str_eqb k k') eqn:Ek.
    + apply str_eqb_eq in Ek. subst k'. rewrite environ_lookup_store in H1.
      injection H1 as <-. right. unfold storable. rewrite Hn1, Hn2.
      repeat split; try reflexivity; try assumption.
      exists line. split; [now left|assumption].
    + left. rewrite environ_lookup_store_other in H1; [exact H1|].
      intros ->. rewrite str_eqb_refl in Ek. discriminate.
  - destruct (str_eqb k k') eqn:Ek.
    + apply str_eqb_eq in Ek. subst k'. rewrite environ_lookup_store in H1.
      discriminate.
    + rewrite environ_lookup_store_other in H1
        by (intros ->; rewrite str_eqb_refl in Ek; discriminate).
      right. repeat split; try assumption.
      exists l. split; [now right|assumption].
Qed.

Lemma read_lines_skip l1 line l2 environ :
  dotenv_entry line = None ->
  read_lines (l1 ++ line :: l2) environ = read_lines (l1 ++ l2) environ.
Proof.
  intros Hs. revert environ. induction l1 as [|l r IH]; intros environ; cbn [app].
  - now rewrite read_lines_cons, Hs.
  - rewrite !read_lines_cons. destruct (dotenv_entry l) as [[k v]|]; [|apply IH].
    destruct (in_environ k environ); [apply IH|].
    destruct (environ_set k v environ); [apply IH|reflexivity].
Qed.

Lemma strip_trim s : strip s = trim isspace s.
Proof.
  assert (H : forall t, lstrip t = ldrop isspace t).
  { induction t as [|c r IH]; cbn; [reflexivity|]. now rewrite IH. }
  unfold strip, rstrip, trim. now rewrite !H.
Qed.

Lemma strip_chars_trim chars s :
  strip_chars chars s = trim (fun c => contains c chars) s.
Proof.
  assert (H : forall t, lstrip_chars chars t = ldrop (fun c => contains c chars) t).
  { induction t as [|c r IH]; cbn [lstrip_chars ldrop]; [reflexivity|].
    now rewrite IH. }
  unfold strip_chars, trim. now rewrite !H.
Qed.

Lemma first_char_app (a b0 : str) :
  first_char (a ++ b0) = match first_char a with Some c => Some c | None => first_char b0 end.
Proof. now destruct a. Qed.

Lemma first_char_rev_nil (s : str) : first_char (rev s) = None -> s = [].
Proof.
  destruct s as [|c r]; [reflexivity|]. cbn [rev]. rewrite first_char_app.
  now destruct (first_char (rev r)).
Qed.

Lemma edge_free_cases p (s : str) :
  edge_free p s = true ->
  s = [] \/ exists a r z w,
      s = a :: r /\ rev s = z :: w /\ p a = false /\ p z = false.
Proof.
  unfold edge_free. destruct s as [|a r]; [now left|]. right.
  destruct (rev (a :: r)) as [|z w] eqn:E.
  - apply (f_equal (@length _)) in E. rewrite length_rev in E. discriminate.
  - cbn [first_char] in H. apply andb_true_iff in H as [Ha Hz].
    apply negb_true_iff in Ha, Hz. exists a, r, z, w. auto.
Qed.

Lemma edge_free_weaken (p p' : char -> bool) (s : str) :
  (forall c, p' c = true -> p c = true) ->
  edge_free p s = true -> edge_free p' s = true.
Proof.
  intros Hpp H. apply edge_free_cases in H as [->|(a & r & z & w & -> & E & Ha & Hz)];
    [reflexivity|].
  unfold edge_free. rewrite E. cbn [first_char].
  destruct (p' a) eqn:Ea; [rewrite (Hpp _ Ea) in Ha; discriminate|].
  destruct (p' z) eqn:Ez; [rewrite (Hpp _ Ez) in Hz; discriminate|].
  reflexivity.
Qed.

(** Trimming changes nothing when neither end can be trimmed. *)
Lemma trim_edge_free p (s : str) : edge_free p s = true -> trim p s = s.
Proof.
  intros H. apply edge_free_cases in H as [->|(a & r & z & w & -> & E & Ha & Hz)];
    [reflexivity|].
  unfold trim. cbn [ldrop]. rewrite Ha, E. cbn [ldrop]. rewrite Hz, <- E.
  apply rev_involutive.
Qed.

(** Trimming removes one pair of enclosing characters and stops at a value
    that cannot be trimmed. *)
Lemma trim_wrapped p (qc : char) (v : str) :
  p qc = true -> edge_free p v = true -> trim p (qc :: v ++ [qc]) = v.
Proof.
  intros Hq H. unfold trim. cbn [ldrop]. rewrite Hq.
  apply edge_free_cases in H as [->|(a & r & z & w & -> & E & Ha & Hz)].
  - cbn. now rewrite Hq.
  - cbn [app ldrop]. rewrite Ha. change (a :: r ++ [qc]) with ((a :: r) ++ [qc]).
    rewrite rev_app_distr. change (rev [qc]) with [qc]. cbn [app ldrop].
    rewrite Hq, E. cbn [ldrop]. rewrite Hz, <- E. apply rev_involutive.
Qed.

Lemma edge_free_line p (k : str) (c : char) (w : str) :
  k <> [] -> edge_free p k = true -> p c = false ->
  edge_free p (c :: w) = true ->
  edge_free p (k ++ c :: w) = true.
Proof.
  intros Hk Hfk Hc Hw.
  apply edge_free_cases in Hfk as [->|(a & r & z & w' & -> & _ & Ha & _)];
    [contradiction|].
  apply edge_free_cases in Hw as [|(a' & r' & z' & w'' & E1 & E2 & _ & Hz')];
    [discriminate|].
  unfold edge_free. rewrite rev_app_distr, E2. cbn [app first_char].
  now rewrite Ha, Hz'.
Qed.

Lemma edge_free_cons_snoc p (c : char) (v : str) (z : char) :
  p c = false -> p z = false -> edge_free p (c :: v ++ [z]) = true.
Proof.
  intros Hc Hz. unfold edge_free. change (c :: v ++ [z]) with ((c :: v) ++ [z]).
  rewrite rev_app_distr. cbn [rev app first_char]. now rewrite Hc, Hz.
Qed.

Lemma edge_free_cons p (c : char) (v : str) :
  p c = false -> edge_free p v = true -> edge_free p (c :: v) = true.
Proof.
  intros Hc H. apply edge_free_cases in H as [->|(a & r & z & w & -> & E & Ha & Hz)].
  - unfold edge_free. cbn. now rewrite Hc.
  - unfold edge_free. change (c :: a :: r) with ([c] ++ a :: r).
    rewrite rev_app_distr, E. cbn [app first_char]. now rewrite Hc, Hz.
Qed.

(** The entry of a line [k=w] written without white space around it. *)
Lemma dotenv_entry_plain (k w : str) :
  k <> [] -> contains eq_sign k = false -> first_char k <> Some 35%N ->
  edge_free isspace k = true -> edge_free isspace (eq_sign :: w) = true ->
  dotenv_entry (k ++ eq_sign :: w)
  = Some (k, strip_chars [39%N] (strip_chars [34%N] (strip w))).
Proof.
  intros Hk Heq Hhash Hfk Hfw. unfold dotenv_entry.
  change 61%N with eq_sign.
  rewrite strip_trim, trim_edge_free by (apply edge_free_line; auto).
  assert (Ht : truthy (JStr (k ++ eq_sign :: w)) = true) by now destruct k.
  assert (Hs : startswith (u "#") (k ++ eq_sign :: w) = false).
  { destruct k as [|a r]; [contradiction|].
    change (u "#") with [35%N]. cbn [app startswith].
    destruct (N.eqb_spec 35 a) as [<-|]; [now elim Hhash|reflexivity]. }
  assert (Hc : contains eq_sign (k ++ eq_sign :: w) = true).
  { unfold contains. rewrite existsb_app. cbn [existsb]. rewrite N.eqb_refl.
    apply orb_true_r. }
  rewrite Ht, Hs, Hc. cbn [negb orb].
  rewrite (@split_once_app eq_sign k w Heq), (strip_trim k), (@trim_edge_free _ _ Hfk).
  now destruct k.
Qed.

(** The entry of a line written [NAME=value], [NAME="value"] or
    [NAME='value']. *)
Lemma dotenv_entry_written (k v : str) :
  k <> [] -> contains eq_sign k = false -> first_char k <> Some 35%N ->
  edge_free isspace k = true -> edge_free value_edge v = true ->
  dotenv_entry (k ++ u "=" ++ v) = Some (k, v)
  /\ dotenv_entry (k ++ u "=" ++ [dquote] ++ v ++ [dquote]) = Some (k, v)
  /\ dotenv_entry (k ++ u "=" ++ u "'" ++ v ++ u "'") = Some (k, v).
Proof.
  intros Hk Heq Hhash Hfk Hfv.
  assert (Hsp : edge_free isspace v = true).
  { apply (edge_free_weaken value_edge); [|exact Hfv].
    intros c Hc. unfold value_edge. now rewrite Hc. }
  assert (Hdq : edge_free (fun c => contains c [34%N]) v = true).
  { apply (edge_free_weaken value_edge); [|exact Hfv].
    intros c Hc. unfold value_edge. rewrite Hc. apply orb_true_iff. left.
    apply orb_true_r. }
  assert (Hsq : edge_free (fun c => contains c [39%N]) v = true).
  { apply (edge_free_weaken value_edge); [|exact Hfv].
    intros c Hc. unfold value_edge. rewrite Hc. apply orb_true_r. }
  change (u "=") with [eq_sign]. change (u "'") with [squote]. cbn [app].
  split; [|split].
  - rewrite dotenv_entry_plain; auto using edge_free_cons.
    rewrite (strip_trim v), (@trim_edge_free _ _ Hsp), !strip_chars_trim.
    now rewrite (@trim_edge_free _ _ Hdq), (@trim_edge_free _ _ Hsq).
  - rewrite dotenv_entry_plain; auto.
    + rewrite strip_trim, trim_edge_free by now apply edge_free_cons_snoc.
      rewrite !strip_chars_trim.
      rewrite (@trim_wrapped (fun c => contains c [34%N]) dquote v eq_refl Hdq).
      now rewrite (@trim_edge_free _ _ Hsq).
    + change (eq_sign :: dquote :: v ++ [dquote])
        with (eq_sign :: (dquote :: v) ++ [dquote]).
      now apply edge_free_cons_snoc.
  - rewrite dotenv_entry_plain; auto.
    + rewrite strip_trim, trim_edge_free by now apply edge_free_cons_snoc.
      rewrite !strip_chars_trim.
      rewrite (@trim_edge_free (fun c => contains c [34%N]) (squote :: v ++ [squote]))
        by now apply edge_free_cons_snoc.
      now rewrite (@trim_wrapped (fun c => contains c [39%N]) squote v eq_refl Hsq).
    + change (eq_sign :: squote :: v ++ [squote])
        with (eq_sign :: (squote :: v) ++ [squote]).
      now apply edge_free_cons_snoc.
Qed.

Lemma lstrip_app_space (a t : str) :
  forallb isspace a = true -> lstrip (a ++ t) = lstrip t.
Proof.
  induction a as [|c r IH]; cbn [app forallb lstrip]; [reflexivity|].
  intros H. apply andb_true_iff in H as [-> H]. now apply IH.
Qed.

Lemma rstrip_app_space (t b0 : str) :
  forallb isspace b0 = true -> rstrip (t ++ b0) = rstrip t.
Proof.
  intros H. unfold rstrip. rewrite rev_app_distr, lstrip_app_space; [reflexivity|].
  now rewrite forallb_rev.
Qed.

(** White space around a line does not count. *)
Lemma strip_padded (a s b0 : str) :
  forallb isspace a = true -> forallb isspace b0 = true ->
  strip (a ++ s ++ b0) = strip s.
Proof.
  intros Ha Hb. unfold strip. rewrite (lstrip_app_space a (s ++ b0) Ha).
  induction s as [|c r IH]; cbn [app lstrip].
  - apply lstrip_nil_iff in Hb. now rewrite Hb.
  - destruct (isspace c); [exact IH|].
    change (c :: r ++ b0) with ((c :: r) ++ b0). now apply rstrip_app_space.
Qed.

Lemma dotenv_entry_padded (a s b0 : str) :
  forallb isspace a = true -> forallb isspace b0 = true ->
  dotenv_entry (a ++ s ++ b0) = dotenv_entry s.
Proof. intros Ha Hb. unfold dotenv_entry. now rewrite (strip_padded a s b0 Ha Hb). Qed.

(** X4: a line of the .env file written [NAME=value], [NAME="value"] or
    [NAME='value'], with or without white space before it and a line end
    after it, is read back by the loader: when the line is reached and the
    environment does not hold the name yet, the loaded environment gives the
    name the value the line was written from, whatever lines follow. The name
    is not empty, holds no "=", does not start with "#" and has no white
    space at its ends; the value has neither white space nor a quote at its
    ends; neither holds a NUL. *)
Theorem dotenv_line_round_trip
  (k v indent eol line : str) (rest : list str) (environ : environment) :
  k <> [] -> contains eq_sign k = false -> first_char k <> Some 35%N ->
  edge_free isspace k = true -> edge_free value_edge v = true ->
  storable k = true -> storable v = true ->
  forallb isspace indent = true -> forallb isspace eol = true ->
  environ_lookup k environ = None ->
  In line [k ++ u "=" ++ v;
           k ++ u "=" ++ [dquote] ++ v ++ [dquote];
           k ++ u "=" ++ u "'" ++ v ++ u "'"] ->
  environ_lookup k
    (load_dotenv_manual (Some ((indent ++ line ++ eol) :: rest)) environ)
  = Some v.
Proof.
  intros Hk Heq Hhash Hfk Hfv Hsk Hsv Hi He H0 Hline.
  assert (Hentry : dotenv_entry (indent ++ line ++ eol) = Some (k, v)).
  { rewrite (dotenv_entry_padded indent line eol Hi He).
    destruct (@dotenv_entry_written k v Hk Heq Hhash Hfk Hfv) as (H1 & H2 & H3).
    destruct Hline as [<-|[<-|[<-|[]]]]; assumption. }
  cbn [load_dotenv_manual].
  rewrite read_lines_cons, Hentry. unfold in_environ, environ_set. rewrite H0.
  unfold storable in Hsk, Hsv. apply negb_true_iff in Hsk, Hsv. rewrite Hsk, Hsv.
  cbn [orb ret]. apply read_lines_keeps, environ_lookup_store.
Qed.

Lemma dotenv_line_round_trip_witness :
  environ_lookup (u "GROQ_API_KEY")
    (load_dotenv_manual
       (Some (([] ++ quoted "GROQ_API_KEY='sk_xxx'" ++ nl)
                :: [u "GROQ_API_KEY=sk_other" ++ nl]))
       [(u "HOME", u "/root")])
  = Some (u "sk_xxx").
Proof.
  apply (@dotenv_line_round_trip (u "GROQ_API_KEY") (u "sk_xxx") [] nl
           (quoted "GROQ_API_KEY='sk_xxx'") [u "GROQ_API_KEY=sk_other" ++ nl]
           [(u "HOME", u "/root")]);
    try reflexivity; try (vm_compute; discriminate).
  right. left. reflexivity.
Defined.

(** X5: the loader never changes a variable the process environment already
    holds: its value after loading is its value before, whatever the file
    says. *)
Theorem dotenv_never_overrides
  (dotenv : option (list str)) (environ : environment) (k v : str) :
  environ_lookup k environ = Some v ->
  environ_lookup k (load_dotenv_manual dotenv environ) = Some v.
Proof.
  intros H. destruct dotenv as [lines|]; [|exact H].
  now apply read_lines_keeps.
Qed.

Lemma dotenv_never_overrides_witness :
  environ_lookup (u "GROQ_API_KEY")
    (load_dotenv_manual (Some sample_dotenv) preset_environ)
  = Some (u "sk_live").
Proof.
  apply (@dotenv_never_overrides (Some sample_dotenv) preset_environ
           (u "GROQ_API_KEY") (u "sk_live")).
  reflexivity.
Defined.

(** X6: every variable of the environment after loading either was in the
    process environment with that value, or is new and was asked for by a line
    of the file; a new name is never empty, holds no "=" and no NUL, and its
    value holds no NUL. *)
Theorem dotenv_variable_origin
  (dotenv : option (list str)) (environ : environment) (k v : str) :
  environ_lookup k (load_dotenv_manual dotenv environ) = Some v ->
  environ_lookup k environ = Some v
  \/ (environ_lookup k environ = None
      /\ k <> [] /\ contains eq_sign k = false
      /\ storable k = true /\ storable v = true
      /\ exists lines line,
           dotenv = Some lines /\ In line lines /\ dotenv_entry line = Some (k, v)).
Proof.
  destruct dotenv as [lines|]; cbn [load_dotenv_manual]; [|now left].
  intros H. apply read_lines_origin in H as [H|(H0 & Hk & Hv & line & Hin & He)];
    [now left|right].
  destruct (dotenv_entry_name _ He) as [Hne Heq].
  repeat split; try assumption. exists lines, line. auto.
Qed.

Lemma dotenv_variable_origin_witness :
  environ_lookup (u "GROQ_MODEL") preset_environ
  = Some (u "llama-3.3-70b-versatile")
  \/ (environ_lookup (u "GROQ_MODEL") preset_environ = None
      /\ u "GROQ_MODEL" <> [] /\ contains eq_sign (u "GROQ_MODEL") = false
      /\ storable (u "GROQ_MODEL") = true
      /\ storable (u "llama-3.3-70b-versatile") = true
      /\ exists lines line,
           Some sample_dotenv = Some lines /\ In line lines
           /\ dotenv_entry line
              = Some (u "GROQ_MODEL", u "llama-3.3-70b-versatile")).
Proof.
  apply (@dotenv_variable_origin (Some sample_dotenv) preset_environ).
  vm_compute. reflexivity.
Defined.

Lemma dotenv_entry_noise line :
  strip line = []
  \/ startswith (u "#") (strip line) = true
  \/ contains eq_sign line = false
  \/ startswith (u "=") (strip line) = true ->
  dotenv_entry line = None.
Proof.
  unfold dotenv_entry. intros [H|[H|[H|H]]].
  - now rewrite H.
  - rewrite H. now rewrite orb_true_r.
  - destruct (contains 61%N (strip line)) eqn:E.
    + apply strip_keeps in E. discriminate (eq_trans (eq_sym H) E).
    + now rewrite orb_true_r.
  - destruct (strip line) as [|c r]; [reflexivity|].
    change (u "=") with [61%N] in H. cbn [startswith] in H.
    apply andb_true_iff in H as [H _]. apply N.eqb_eq in H. subst c.
    destruct (negb _ || _ || _); [reflexivity|].
    cbn [split_once]. now rewrite N.eqb_refl.
Qed.

(** X7: a line of the .env file that is blank, that starts with "#" after its
    white space, that holds no "=", or that starts with "=" (an empty name)
    is ignored: the environment loaded from a file is the one loaded from the
    file without that line. *)
Theorem dotenv_skips_noise (line : str) (l1 l2 : list str) (environ : environment) :
  strip line = []
  \/ startswith (u "#") (strip line) = true
  \/ contains eq_sign line = false
  \/ startswith (u "=") (strip line) = true ->
  load_dotenv_manual (Some (l1 ++ line :: l2)) environ
  = load_dotenv_manual (Some (l1 ++ l2)) environ.
Proof.
  intros H. cbn [load_dotenv_manual]. apply read_lines_skip.
  now apply dotenv_entry_noise.
Qed.

Lemma dotenv_skips_noise_witness :
  load_dotenv_manual
    (Some ([u "GROQ_MODEL=m1"] ++ u "  # GROQ_MODEL=m2" :: [u "GROQ_API_KEY=sk"])) []
  = load_dotenv_manual (Some ([u "GROQ_MODEL=m1"] ++ [u "GROQ_API_KEY=sk"])) [].
Proof.
  apply (@dotenv_skips_noise (u "  # GROQ_MODEL=m2")).
  right. left. reflexivity.
Defined.

(** X8: the first line of the file that defines a name not yet in the
    environment sets it for good: no later line of the file changes it. *)
Theorem dotenv_first_definition_wins
  (line : str) (rest : list str) (environ : environment) (k v : str) :
  dotenv_entry line = Some (k, v) ->
  environ_lookup k environ = None ->
  storable k = true -> storable v = true ->
  environ_lookup k (load_dotenv_manual (Some (line :: rest)) environ) = Some v.
Proof.
  intros He H0 Hk Hv. cbn [load_dotenv_manual].
  rewrite read_lines_cons, He. unfold in_environ, environ_set. rewrite H0.
  unfold storable in Hk, Hv. apply negb_true_iff in Hk, Hv. rewrite Hk, Hv.
  cbn [orb ret]. apply read_lines_keeps, environ_lookup_store.
Qed.

Lemma dotenv_first_definition_wins_witness :
  environ_lookup (u "GROQ_API_KEY")
    (load_dotenv_manual
       (Some (u "GROQ_API_KEY=sk_xxx" :: [u "GROQ_API_KEY=sk_other"])) [])
  = Some (u "sk_xxx").
Proof.
  apply (@dotenv_first_definition_wins (u "GROQ_API_KEY=sk_xxx")
           [u "GROQ_API_KEY=sk_other"] [] (u "GROQ_API_KEY") (u "sk_xxx"));
    reflexivity.
Defined.

(** X9: a line that asks for a new variable whose name or value holds a NUL
    character ends the loading: the assignment raises, the exception is
    swallowed, and the lines after it are never read. *)
Theorem dotenv_nul_stops_loading
  (line : str) (rest : list str) (environ : environment) (k v : str) :
  dotenv_entry line = Some (k, v) ->
  environ_lookup k environ = None ->
  storable k && storable v = false ->
  load_dotenv_manual (Some (line :: rest)) environ = environ.
Proof.
  intros He H0 Hn. cbn [load_dotenv_manual].
  rewrite read_lines_cons, He. unfold in_environ, environ_set. rewrite H0.
  unfold storable in Hn. rewrite <- negb_orb in Hn. apply negb_false_iff in Hn.
  now rewrite Hn.
Qed.

Lemma dotenv_nul_stops_loading_witness :
  load_dotenv_manual (Some (nul_line :: [u "GROQ_API_KEY=sk_xxx"])) [] = [].
Proof.
  apply (@dotenv_nul_stops_loading nul_line [u "GROQ_API_KEY=sk_xxx"] []
           (u "A") (u "x" ++ [0%N] ++ u "y"));
    reflexivity.
Defined.

(* ================================================================== *)
(** ** The routes as a whole *)

Lemma header_set_header k v h : header k (set_header k v h) = Some v.
Proof.
  induction h as [|[k' v'] r IH]; cbn [set_header header].
  - now rewrite str_eqb_refl.
  - destruct (str_eqb k k') eqn:E; cbn [header]; rewrite ?str_eqb_refl, ?E;
      [reflexivity|exact IH].
Qed.

Lemma header_set_header_other k v k0 h :
  str_eqb k0 k = false -> header k0 (set_header k v h) = header k0 h.
Proof.
  intros Hne. induction h as [|[k' v'] r IH]; cbn [set_header header].
  - now rewrite Hne.
  - destruct (str_eqb k k') eqn:E; cbn [header].
    + apply str_eqb_eq in E. subst k'. now rewrite Hne.
    + now rewrite IH.
Qed.

Lemma set_header_same k v h : header k h = Some v -> set_header k v h = h.
Proof.
  induction h as [|[k' v'] r IH]; cbn [set_header header]; [discriminate|].
  destruct (str_eqb k k') eqn:E.
  - apply str_eqb_eq in E. subst k'. now intros [= ->].
  - intros H. now rewrite IH.
Qed.

Lemma cors_headers_set (resp : Response) :
  header (u "Access-Control-Allow-Origin") (headers (add_cors_headers resp))
  = Some (u "*")
  /\ header (u "Access-Control-Allow-Headers") (headers (add_cors_headers resp))
     = Some (u "Content-Type, Authorization")
  /\ header (u "Access-Control-Allow-Methods") (headers (add_cors_headers resp))
     = Some (u "POST, OPTIONS").
Proof.
  cbn [add_cors_headers headers]. repeat split.
  - rewrite !header_set_header_other by reflexivity. apply header_set_header.
  - rewrite header_set_header_other by reflexivity. apply header_set_header.
  - apply header_set_header.
Qed.

Lemma add_cors_headers_idempotent (resp : Response) :
  add_cors_headers (add_cors_headers resp) = add_cors_headers resp.
Proof.
  destruct (cors_headers_set resp) as (Ho & Hh & Hm).
  unfold add_cors_headers at 1. cbn [status mimetype body].
  rewrite (set_header_same _ _ Ho), (set_header_same _ _ Hh), (set_header_same _ _ Hm).
  reflexivity.
Qed.

Section Routes.
Context {L : JsonLib}.
Variable env : Env.

Lemma stream_completion_cors messages resp :
  outcome_of (stream_completion env messages) = Returned resp ->
  exists resp0, resp = add_cors_headers resp0.
Proof.
  unfold stream_completion. cbn [outcome_of].
  destruct (post env (completion_call env messages)) as [e| |r]; [|discriminate|].
  - intros [= <-]. eauto.
  - destruct (negb (status_code r =? 200)%Z); intros [= <-]; eauto.
Qed.

(** The relay raises only when the upstream call raised outside
    [requests.RequestException]. *)
Lemma stream_completion_raised messages :
  outcome_of (stream_completion env messages) = Raised ->
  post env (completion_call env messages) = OtherException.
Proof.
  unfold stream_completion. cbn [outcome_of].
  now destruct (post env (completion_call env messages)).
Qed.

Lemma preamble_cors req resp :
  preamble env req = Some resp -> exists resp0, resp = add_cors_headers resp0.
Proof.
  unfold preamble. destruct (method req).
  - destruct (negb _); [|discriminate]. intros [= <-]. eauto.
  - intros [= <-]. eauto.
Qed.

Lemma branch_body_early req resp :
  branch_body req = Some (inl resp) -> exists msg, resp = bad_request msg.
Proof.
  intros H. destruct (branch_body_inv req H) as (kvs & s & qu & Hf & Hs & Hq).
  rewrite (branch_body_text req Hf Hs Hq) in H.
  destruct (negb _); [injection H as <-; eauto|].
  destruct (history_messages _); [|discriminate]. cbn [bind] in H.
  destruct (truthy (por (field "popup_turns" kvs) (JList []))).
  - destruct (iterate _); [|discriminate]. cbn [bind] in H.
    destruct (collect popup_turn _); discriminate.
  - destruct (truthy (JStr (strip qu))); [discriminate|].
    injection H as <-. eauto.
Qed.

Lemma branch_summary_body_early req resp :
  branch_summary_body req = Some (inl resp) -> exists msg, resp = bad_request msg.
Proof.
  intros H. destruct (branch_summary_body_inv req H) as (kvs & s & Hf & Hs).
  rewrite (branch_summary_body_text req Hf Hs) in H.
  destruct (negb _); [injection H as <-; eauto|].
  destruct (history_messages _); [|discriminate]. cbn [bind] in H.
  destruct (transcript_messages _); discriminate.
Qed.

(** The three ways a route ends: an unhandled exception before any upstream
    call, an early response with the cross-origin headers, or the relay of
    one message list. *)
Lemma handle_cases rt req :
  handle rt env req = crashed
  \/ (exists resp0, handle rt env req = respond (add_cors_headers resp0))
  \/ (exists messages, handle rt env req = stream_completion env messages).
Proof.
  destruct rt; cbn [handle].
  - unfold chat. destruct (preamble env req) as [resp|] eqn:Ep.
    + destruct (preamble_cors req Ep) as [resp0 ->]. eauto.
    + destruct (get_default _ _ _); eauto.
  - unfold branch. destruct (preamble env req) as [resp|] eqn:Ep.
    + destruct (preamble_cors req Ep) as [resp0 ->]. eauto.
    + destruct (branch_body req) as [[resp|messages]|] eqn:Eb; cbn [finish]; eauto.
      destruct (branch_body_early req Eb) as [msg ->]. right. left.
      unfold bad_request. eauto.
  - unfold branch_summary. destruct (preamble env req) as [resp|] eqn:Ep.
    + destruct (preamble_cors req Ep) as [resp0 ->]. eauto.
    + destruct (branch_summary_body req) as [[resp|messages]|] eqn:Eb;
        cbn [finish]; eauto.
      destruct (branch_summary_body_early req Eb) as [msg ->]. right. left.
      unfold bad_request. eauto.
Qed.

End Routes.

Lemma handle_calls (L : JsonLib) (rt : route) (env : Env) (req : Request) c :
  In c (calls (handle rt env req)) ->
  exists messages,
    c = completion_call env messages
    /\ handle rt env req = stream_completion env messages.
Proof.
  destruct (handle_cases env rt req) as [H|[[resp0 H]|[messages H]]]; rewrite H.
  - intros [].
  - intros [].
  - cbn [stream_completion calls In]. intros [<-|[]]. eauto.
Qed.

(** X10: no route makes more than one upstream call for a request, and the
    call is never retried: a request that ends in an unhandled exception
    either made no call, or made one call that raised an exception other than
    a [requests.RequestException]; and a request that made a call is answered
    with the relay's outcome for exactly that call, whether upstream failed or
    not. *)
Theorem at_most_one_upstream_call
  (L : JsonLib) (rt : route) (env : Env) (req : Request) :
  length (calls (handle rt env req)) <= 1
  /\ (outcome_of (handle rt env req) = Raised ->
      calls (handle rt env req) = []
      \/ exists c, calls (handle rt env req) = [c] /\ post env c = OtherException)
  /\ (forall c, In c (calls (handle rt env req)) ->
        exists messages,
          c = completion_call env messages
          /\ handle rt env req = stream_completion env messages
          /\ calls (handle rt env req) = [c]).
Proof.
  split; [|split].
  - destruct (handle_cases env rt req) as [H|[[resp0 H]|[messages H]]]; rewrite H;
      cbn; lia.
  - destruct (handle_cases env rt req) as [H|[[resp0 H]|[messages H]]]; rewrite H.
    + now left.
    + discriminate.
    + intros Hr. right. exists (completion_call env messages).
      split; [reflexivity|]. now apply stream_completion_raised.
  - intros c Hc. destruct (handle_calls L rt env req c Hc) as (messages & -> & H).
    exists messages. rewrite H. repeat split.
Qed.

(** X11: every response a route returns, an error as much as a stream,
    carries the three cross-origin headers with their fixed values, and the
    after-request hook, which sets them again, leaves it as it is. *)
Theorem cors_headers_on_every_response
  (L : JsonLib) (rt : route) (env : Env) (req : Request) (resp : Response) :
  outcome_of (handle rt env req) = Returned resp ->
  after resp = resp
  /\ header (u "Access-Control-Allow-Origin") (headers resp) = Some (u "*")
  /\ header (u "Access-Control-Allow-Headers") (headers resp)
     = Some (u "Content-Type, Authorization")
  /\ header (u "Access-Control-Allow-Methods") (headers resp)
     = Some (u "POST, OPTIONS").
Proof.
  intros H.
  assert (Hc : exists resp0, resp = add_cors_headers resp0).
  { destruct (handle_cases env rt req) as [E|[[resp0 E]|[messages E]]];
      rewrite E in H.
    - discriminate.
    - injection H as <-. eauto.
    - now apply (stream_completion_cors env messages). }
  destruct Hc as [resp0 ->]. split; [apply add_cors_headers_idempotent|].
  apply cors_headers_set.
Qed.

Lemma cors_headers_on_every_response_witness :
  after (add_cors_headers (stream_response [ascii_bytes "Hi"; ascii_bytes " there"]))
  = add_cors_headers (stream_response [ascii_bytes "Hi"; ascii_bytes " there"])
  /\ header (u "Access-Control-Allow-Origin")
       (headers (add_cors_headers
                   (stream_response [ascii_bytes "Hi"; ascii_bytes " there"])))
     = Some (u "*")
  /\ header (u "Access-Control-Allow-Headers")
       (headers (add_cors_headers
                   (stream_response [ascii_bytes "Hi"; ascii_bytes " there"])))
     = Some (u "Content-Type, Authorization")
  /\ header (u "Access-Control-Allow-Methods")
       (headers (add_cors_headers
                   (stream_response [ascii_bytes "Hi"; ascii_bytes " there"])))
     = Some (u "POST, OPTIONS").
Proof.
  apply (@cors_headers_on_every_response Json.reference Branch streaming
           (post_json (JDict both_fields))).
  vm_compute. reflexivity.
Defined.

(** X12: a credential of the process environment is the one every upstream
    call carries, whatever the .env file defines: the request goes to the
    completions URL with the header "Authorization: Bearer <credential>". *)
Theorem environment_credential_reaches_upstream
  (L : JsonLib) (dotenv : option (list str)) (environ : environment)
  (network : upstream_call -> post_result) (key : str)
  (rt : route) (req : Request) (c : upstream_call) :
  environ_lookup (u "GROQ_API_KEY") environ = Some key ->
  In c (calls (handle rt (startup dotenv environ network) req)) ->
  GROQ_API_KEY (startup dotenv environ network) = key
  /\ url c = u "https://api.groq.com/openai/v1/chat/completions"
  /\ req_headers c
     = [(u "Authorization", u "Bearer " ++ key);
        (u "Content-Type", u "application/json")].
Proof.
  intros Hk Hc.
  assert (Hkey : GROQ_API_KEY (startup dotenv environ network) = key).
  { cbn [startup configure GROQ_API_KEY]. unfold environ_get.
    destruct dotenv as [lines|]; cbn [load_dotenv_manual];
      [rewrite (read_lines_keeps lines environ _ Hk)|rewrite Hk]; reflexivity. }
  split; [exact Hkey|].
  destruct (handle_calls L rt (startup dotenv environ network) req c Hc)
    as (messages & -> & _).
  cbn [completion_call url req_headers]. rewrite Hkey. split; reflexivity.
Qed.

Lemma environment_credential_reaches_upstream_witness :
  GROQ_API_KEY (startup (Some sample_dotenv) preset_environ hi_network) = u "sk_live"
  /\ url (completion_call (startup (Some sample_dotenv) preset_environ hi_network)
            (JList [selected_context (u "photosynthesis"); turn "user" "hi"]))
     = u "https://api.groq.com/openai/v1/chat/completions"
  /\ req_headers
       (completion_call (startup (Some sample_dotenv) preset_environ hi_network)
          (JList [selected_context (u "photosynthesis"); turn "user" "hi"]))
     = [(u "Authorization", u "Bearer " ++ u "sk_live");
        (u "Content-Type", u "application/json")].
Proof.
  apply (@environment_credential_reaches_upstream Json.reference
           (Some sample_dotenv) preset_environ hi_network (u "sk_live")
           Branch (post_json (JDict both_fields))).
  - reflexivity.
  - vm_compute. left. reflexivity.
Defined.

(* ================================================================== *)
(** ** Edges of the request body *)

Lemma collect_raises (f : json -> exc (list json)) items t :
  In t items -> f t = None -> collect f items = None.
Proof.
  intros Hin Hf. induction items as [|x r IH]; [destruct Hin|].
  cbn [collect]. destruct Hin as [->|Hin].
  - now rewrite Hf.
  - destruct (f x); [|reflexivity]. cbn [bind]. now rewrite (IH Hin).
Qed.

Lemma get_not_object t k :
  (forall kvs, t <> JDict kvs) -> get t k = None.
Proof. intros H. destruct t; try reflexivity. now elim (H kvs). Qed.

(** X13: popup turns are not read as leniently as history entries. On a POST
    with a selection that is not blank and a history that can be iterated, a
    popup_turns list holding an element that is not an object makes
    branch-summary, and branch when its question is absent, false or text, end
    in an unhandled exception without an upstream call. *)
Theorem popup_turn_must_be_object
  (L : JsonLib) (env : Env) (req : Request) (kvs : list (str * json))
  (s : str) (hist items : list json) (t : json) :
  method req = POST -> GROQ_API_KEY env <> [] ->
  body_fields req = Some kvs ->
  text_field "selection" kvs = Some s -> strip (firstn selection_limit s) <> [] ->
  history_messages (por (field "history" kvs) (JList [])) = Some hist ->
  por (field "popup_turns" kvs) (JList []) = JList items ->
  In t items -> (forall o, t <> JDict o) ->
  branch_summary env req = crashed
  /\ (forall qu, text_field "question" kvs = Some qu -> branch env req = crashed).
Proof.
  intros Hm Hk Hf Hs Hnb Hh Hp Hin Ht.
  assert (Htr : truthy (JList items) = true) by (destruct items; [destruct Hin|reflexivity]).
  split.
  - unfold branch_summary.
    rewrite (preamble_post env req Hm Hk), (branch_summary_body_text req Hf Hs), Hh, Hp.
    destruct (strip (firstn selection_limit s)); [contradiction|].
    cbn [truthy negb bind]. unfold transcript_messages. rewrite Htr.
    cbn [iterate bind ret].
    rewrite (collect_raises transcript_turn items t Hin); [reflexivity|].
    unfold transcript_turn. now rewrite get_not_object.
  - intros qu Hq. unfold branch.
    rewrite (preamble_post env req Hm Hk), (branch_body_text req Hf Hs Hq), Hh, Hp.
    destruct (strip (firstn selection_limit s)); [contradiction|].
    rewrite Htr. cbn [truthy negb bind iterate ret]. cbv zeta.
    rewrite (collect_raises popup_turn items t Hin); [reflexivity|].
    unfold popup_turn. now rewrite get_not_object.
Qed.

Lemma popup_turn_must_be_object_witness :
  branch_summary (L := Json.reference) streaming (post_json (JDict junk_turn_fields))
  = crashed
  /\ branch (L := Json.reference) streaming (post_json (JDict junk_turn_fields))
     = crashed.
Proof.
  assert (Hk : GROQ_API_KEY streaming <> []) by (vm_compute; discriminate).
  assert (Hnb : strip (firstn selection_limit (u "photosynthesis")) <> [])
    by (vm_compute; discriminate).
  assert (Ht : forall o, JStr (u "junk") <> JDict o) by discriminate.
  destruct (@popup_turn_must_be_object Json.reference streaming
              (post_json (JDict junk_turn_fields)) junk_turn_fields
              (u "photosynthesis") []
              [JDict (turn_fields "user" "hi"); JStr (u "junk")] (JStr (u "junk"))
              eq_refl Hk eq_refl eq_refl Hnb eq_refl eq_refl
              (or_intror (or_introl eq_refl)) Ht)
    as (H1 & H2).
  split; [exact H1|]. apply (H2 (u "why?")). reflexivity.
Defined.

(** X14: the history is read leniently. A history that is a text or an object
    contributes no message and raises nothing; an entry that is not an object
    with both a role and a content is skipped without a trace; and a history
    list never contributes more messages than it has entries. *)
Theorem history_is_lenient :
  (forall s, history_messages (JStr s) = Some [])
  /\ (forall kvs, history_messages (JDict kvs) = Some [])
  /\ (forall l1 x l2,
        well_formed_entry x = false ->
        history_messages (JList (l1 ++ x :: l2)) = history_messages (JList (l1 ++ l2)))
  /\ (forall items,
        exists out,
          history_messages (JList items) = Some out /\ length out <= length items).
Proof.
  split; [|split; [|split]].
  - intros s. unfold history_messages. cbn [iterate bind ret].
    enough (H : flat_map history_entry (map (fun c => JStr [c]) s) = [])
      by now rewrite H.
    induction s as [|c r IH]; [reflexivity|exact IH].
  - intros kvs. unfold history_messages. cbn [iterate bind ret].
    enough (H : flat_map history_entry (map (fun kv => JStr (fst kv)) kvs) = [])
      by now rewrite H.
    induction kvs as [|[k v] r IH]; [reflexivity|exact IH].
  - intros l1 x l2 Hx. unfold history_messages. cbn [iterate bind ret].
    rewrite !flat_map_app. cbn [flat_map].
    now rewrite (history_entry_forwarded x), Hx.
  - intros items. unfold history_messages. cbn [iterate bind ret].
    eexists. split; [reflexivity|].
    rewrite history_entries_forwarded, length_map. apply filter_length_le.
Qed.

(** X15: a body that is missing, that does not decode, or that decodes to
    null, false, zero, an empty text, an empty list or an empty object is read
    as the empty object: branch and branch-summary answer 400
    "selection required" without an upstream call, and chat relays the empty
    message list. *)
Theorem empty_body_is_empty_object (L : JsonLib) (env : Env) (req : Request) :
  method req = POST -> GROQ_API_KEY env <> [] ->
  truthy (get_json req) = false ->
  branch env req = rejected "selection required"
  /\ branch_summary env req = rejected "selection required"
  /\ chat env req = stream_completion env (JList []).
Proof.
  intros Hm Hk Hb.
  assert (Hf : body_fields req = Some []) by (unfold body_fields, por; now rewrite Hb).
  split; [|split].
  - now apply (@branch_blank_prefix L env req [] [] []).
  - now apply (@branch_summary_blank_prefix L env req [] []).
  - unfold chat, por. now rewrite (preamble_post env req Hm Hk), Hb.
Qed.

Lemma empty_body_is_empty_object_witness :
  branch (L := Json.reference) streaming (post_json JNull)
  = rejected "selection required"
  /\ branch_summary (L := Json.reference) streaming (post_json JNull)
     = rejected "selection required"
  /\ chat (L := Json.reference) streaming (post_json JNull)
     = stream_completion (L := Json.reference) streaming (JList []).
Proof.
  assert (Hk : GROQ_API_KEY streaming <> []) by (vm_compute; discriminate).
  apply (@empty_body_is_empty_object Json.reference streaming (post_json JNull)
           eq_refl Hk eq_refl).
Defined.

(** X16: a body that decodes to a true value that is not an object (a
    non-empty list or text, a non-zero number, true) makes every route end in
    an unhandled exception without an upstream call. *)
Theorem non_object_body_raises (L : JsonLib) (env : Env) (req : Request) :
  method req = POST -> GROQ_API_KEY env <> [] ->
  truthy (get_json req) = true -> (forall kvs, get_json req <> JDict kvs) ->
  chat env req = crashed /\ branch env req = crashed
  /\ branch_summary env req = crashed.
Proof.
  intros Hm Hk Hb Hn.
  assert (Hf : body_fields req = None).
  { unfold body_fields, por. rewrite Hb. destruct (get_json req); try reflexivity.
    now elim (Hn kvs). }
  unfold chat, branch, branch_summary, branch_body, branch_summary_body.
  rewrite (preamble_post env req Hm Hk), !(fun k => @get_no_fields req k Hf).
  split; [|split; reflexivity].
  unfold por. rewrite Hb. destruct (get_json req); try reflexivity.
  now elim (Hn kvs).
Qed.

Lemma non_object_body_raises_witness :
  chat (L := Json.reference) streaming (post_json (JList [JInt 1])) = crashed
  /\ branch (L := Json.reference) streaming (post_json (JList [JInt 1])) = crashed
  /\ branch_summary (L := Json.reference) streaming (post_json (JList [JInt 1]))
     = crashed.
Proof.
  assert (Hk : GROQ_API_KEY streaming <> []) by (vm_compute; discriminate).
  assert (Hn : forall kvs, get_json (post_json (JList [JInt 1])) <> JDict kvs)
    by discriminate.
  apply (@non_object_body_raises Json.reference streaming
           (post_json (JList [JInt 1])) eq_refl Hk eq_refl Hn).
Defined.

(* ================================================================== *)
(** ** The streamed bytes *)

(** X17: the generator never yields an empty chunk, and never splits a
    character between two chunks: every chunk is the whole UTF-8 encoding of
    the non-empty text that one "data: " line carries. *)
Theorem generate_chunks_are_whole_texts
  (L : JsonLib) (lines : list str) (chunk : bytes) :
  In chunk (generate lines) ->
  chunk <> []
  /\ exists line s,
       In line lines /\ line_text line = Some s /\ s <> []
       /\ encode_utf8 s = Some chunk.
Proof.
  induction lines as [|l r IH]; [intros []|].
  rewrite generate_cons. intros H.
  assert (Hr : In chunk (generate r) ->
               chunk <> []
               /\ exists line s,
                    In line (l :: r) /\ line_text line = Some s /\ s <> []
                    /\ encode_utf8 s = Some chunk).
  { intros Hin. destruct (IH Hin) as (Hne & line & s & H1 & H2 & H3 & H4).
    split; [exact Hne|]. exists line, s. repeat split; try assumption. now right. }
  destruct (classify l) eqn:E; try (now apply Hr).
  destruct H as [<-|H]; [|now apply Hr].
  apply classify_chunk in E as (s & Ht & He).
  pose proof (line_text_nonempty _ Ht) as Hs.
  split.
  - destruct s as [|c t]; [contradiction|]. now apply encode_utf8_nonempty in He.
  - exists l, s. repeat split; try assumption. now left.
Qed.

Lemma generate_chunks_are_whole_texts_witness :
  ascii_bytes " there" <> []
  /\ exists line s,
       In line noisy_stream
       /\ line_text (L := Json.reference) line = Some s /\ s <> []
       /\ encode_utf8 s = Some (ascii_bytes " there").
Proof.
  apply (@generate_chunks_are_whole_texts Json.reference noisy_stream
           (ascii_bytes " there")).
  vm_compute. right. left. reflexivity.
Defined.

(** X18: the stream only grows. What the generator yields for the lines read
    so far is a prefix of what it yields once more lines arrive; as long as no
    sentinel was read the outputs of two runs of lines follow one another; and
    nothing that follows a sentinel is ever yielded. *)
Theorem generate_output_only_grows (L : JsonLib) (l1 l2 : list str) :
  (exists rest, generate (l1 ++ l2) = generate l1 ++ rest)
  /\ (forallb (fun l => negb (is_done l)) l1 = true ->
      generate (l1 ++ l2) = generate l1 ++ generate l2)
  /\ (forall d, is_done d = true -> generate (l1 ++ d :: l2) = generate l1).
Proof.
  split; [apply generate_app_prefix|]. split; [apply generate_app_open|].
  intros d Hd. apply generate_app_done. unfold is_done in Hd.
  now destruct (classify d).
Qed.

(** X19: chunking does not change the text. When every line carries a text,
    the bytes streamed for the lines are the UTF-8 encoding of the texts put
    end to end. *)
Theorem streamed_bytes_encode_the_texts
  (L : JsonLib) (lines : list str) (texts : list str) (encoded : bytes) :
  Forall2 (fun line t => line_text line = Some t) lines texts ->
  encode_utf8 (concat texts) = Some encoded ->
  concat (generate lines) = encoded
  /\ streamed_bytes (stream_response (generate lines)) = encoded.
Proof.
  intros H. revert encoded.
  assert (Hc : forall encoded,
             encode_utf8 (concat texts) = Some encoded ->
             concat (generate lines) = encoded).
  { induction H as [|line t r ts Ht Hr IH]; intros encoded He.
    - cbn in He. now injection He as <-.
    - cbn [concat] in He. rewrite encode_utf8_app in He.
      destruct (encode_utf8 t) as [b1|] eqn:E1; [|discriminate].
      destruct (encode_utf8 (concat ts)) as [b2|] eqn:E2; [|discriminate].
      injection He as <-.
      assert (Hk : classify line = Chunk b1) by (apply classify_chunk; eauto).
      rewrite generate_cons, Hk. cbn [concat]. now rewrite (IH b2 eq_refl). }
  intros encoded He. split; [now apply Hc|]. cbn [streamed_bytes stream_response body].
  now apply Hc.
Qed.

Lemma streamed_bytes_encode_the_texts_witness :
  concat (generate (L := Json.reference) (firstn 2 hi_there)) = ascii_bytes "Hi there"
  /\ streamed_bytes
       (stream_response (generate (L := Json.reference) (firstn 2 hi_there)))
     = ascii_bytes "Hi there".
Proof.
  apply (@streamed_bytes_encode_the_texts Json.reference (firstn 2 hi_there)
           [u "Hi"; u " there"]).
  - repeat constructor.
  - reflexivity.
Defined.

(** X22: when upstream answers 200 and its lines come undecoded, as bytes,
    the caller gets a 200 response that streams no byte: the generator skips
    the empty lines and raises on the first line that is not empty, so the
    stream breaks exactly when there is such a line, and ends empty
    otherwise. *)
Theorem undecoded_lines_break_the_stream
  (L : JsonLib) (env : Env) (messages : json) (r : upstream_response)
  (lines : list bytes) :
  post env (completion_call env messages) = Replied r ->
  status_code r = 200%Z ->
  iter_lines r = ByteLines lines ->
  exists resp,
    outcome_of (stream_completion env messages) = Returned resp
    /\ status resp = 200%Z
    /\ mimetype resp = u "text/plain; charset=utf-8"
    /\ streamed_bytes resp = []
    /\ (body resp = Broken [] <-> exists line, In line lines /\ line <> [])
    /\ (body resp = Stream [] <-> forall line, In line lines -> line = []).
Proof.
  intros Hpost Hst Hl. unfold stream_completion. cbn [outcome_of].
  rewrite Hpost, Hst, Hl. cbn [Z.eqb Pos.eqb negb generated].
  eexists. split; [reflexivity|].
  unfold streamed_bytes. cbn [add_cors_headers generator_response status mimetype body].
  pose proof (generate_undecoded_iff lines) as Hg.
  destruct (generate_undecoded lines).
  - repeat split; try reflexivity; try discriminate.
    + intros _. now apply Hg.
    + intros Hall. destruct (proj1 Hg eq_refl) as (line & Hin & Hne).
      now elim Hne; apply Hall.
  - repeat split; try reflexivity; try discriminate.
    + intros He. apply Hg in He. discriminate.
    + intros _ line Hin. destruct line as [|b l]; [reflexivity|].
      assert (Hex : exists line, In line lines /\ line <> [])
        by (exists (b :: l); split; [exact Hin|discriminate]).
      apply Hg in Hex. discriminate.
Qed.

Lemma undecoded_lines_break_the_stream_witness :
  exists resp,
    outcome_of (stream_completion (L := Json.reference) undecoded (JList []))
    = Returned resp
    /\ status resp = 200%Z
    /\ streamed_bytes resp = []
    /\ body resp = Broken [].
Proof.
  destruct (@undecoded_lines_break_the_stream Json.reference undecoded (JList [])
              {| status_code := 200; text := [];
                 iter_lines := ByteLines [[]; ascii_bytes "data: [DONE]"] |}
              [[]; ascii_bytes "data: [DONE]"] eq_refl eq_refl eq_refl)
    as (resp & Ho & Hst & _ & Hb & Hbr & _).
  exists resp. repeat split; try assumption.
  apply Hbr. exists (ascii_bytes "data: [DONE]"). split; [right; left; reflexivity|].
  discriminate.
Defined.
